(** * Scoring and persona classification of the style quiz

    A shallow embedding of the scoring code of [App.tsx] (20 questions,
    four categories, total 60) and of its 48-point sibling: the
    [localSummary] memo, the fallback persona of [runDiagnosis], the
    persona lookup of [activePersona] and of [sendResultsToWebhook].

    Conventions.
    - A TypeScript [number] that holds a question id or an option value
      is a [Z].
    - [answers : Record<number, number>] is a [gmap Z Z]; reading a key
      that is absent gives [undefined], here [None].
    - An array is a [list]; [arr[i]] is [arr !! i], [None] when the
      index is out of range ([undefined] in the source).
    - A string is a [string] holding the bytes of its UTF-8 encoding.
      The lookups of a persona take the builtins [toLowerCase] and
      [trim] as parameters; the instance used with the ids of the
      fallback table lower-cases the ASCII letters and trims the white
      space and line terminators of ECMAScript.

    The copies of the page with the webhook have the [localSummary]
    and the fallback table of [App.tsx] word for word. *)

From Stdlib Require Import ZArith List String Ascii Lia.
From stdpp Require Import base decidable option list gmap strings.

Local Open Scope Z_scope.
Local Open Scope string_scope.

(** ** Types of [types.ts] *)

(** [Category]: '面容氣色' | '髮型駕馭' | '穿搭策略' | '社群形象'. *)
Inductive Category : Type :=
  | FaceComplexion   (* 面容氣色 *)
  | HairStyling      (* 髮型駕馭 *)
  | OutfitStrategy   (* 穿搭策略 *)
  | SocialImage.     (* 社群形象 *)

#[global] Instance Category_eq_dec : EqDecision Category.
Proof. solve_decision. Defined.

(** The [level] of a dimension: '紅燈' | '黃燈' | '綠燈'. *)
Inductive Level : Type :=
  | RedLight      (* 紅燈 *)
  | YellowLight   (* 黃燈 *)
  | GreenLight.   (* 綠燈 *)

#[global] Instance Level_eq_dec : EqDecision Level.
Proof. solve_decision. Defined.

(** The [step] state of the page. *)
Inductive Step : Type := hero | quiz | diagnosing | result.

#[global] Instance Step_eq_dec : EqDecision Step.
Proof. solve_decision. Defined.

Module Question.
Record t : Type := mk
  { id : Z;
    category : Category;
    text : string }.
End Question.

Module DimensionResult.
Record t : Type := mk
  { category : Category;
    score : Z;
    level : Level;
    color : string;
    description : string;
    suggestion : string }.
End DimensionResult.

#[global] Instance DimensionResult_eq_dec : EqDecision DimensionResult.t.
Proof. solve_decision. Defined.

(** An entry of [CATEGORY_INFO]: the fields [localSummary] reads. *)
Record CategoryInfo : Type :=
  { description : string;
    suggestions : Level -> string }.

(** The value of the [localSummary] memo when it is not [null]. *)
Record Summary : Type :=
  { summary : list DimensionResult.t;
    totalScore : Z }.

#[global] Instance Summary_eq_dec : EqDecision Summary.
Proof. solve_decision. Defined.

(** ** JavaScript expressions of the reducer *)

(** [val || 0] for [val : number | undefined]: [undefined] and [0] are
    falsy, every other integer is kept. *)
Definition orZero (val : option Z) : Z :=
  match val with
  | Some v => if decide (v = 0) then 0 else v
  | None => 0
  end.

(** [val === -1 ? 0 : (val || 0)]. *)
Definition addend (val : option Z) : Z :=
  if decide (val = Some (-1)) then 0 else orZero val.

(** The highest option value ("每題最高 3 分"). *)
Definition maxOptionValue : Z := 3.

(** ** [localSummary] of [App.tsx] *)

Section Engine.

(** [QUESTIONS] and [CATEGORY_INFO] come from [constants.ts]. *)
Variable QUESTIONS : list Question.t.
Variable CATEGORY_INFO : Category -> CategoryInfo.

Definition categories : list Category :=
  [FaceComplexion; HairStyling; OutfitStrategy; SocialImage].

(** [QUESTIONS.filter(q => q.category === cat)]. *)
Definition catQuestions (cat : Category) : list Question.t :=
  filter (fun q => Question.category q = cat) QUESTIONS.

(** [catQuestions.reduce((acc, q) => acc + ..., 0)]. *)
Definition catScore (answers : gmap Z Z) (cat : Category) : Z :=
  fold_left (fun acc q => acc + addend (answers !! Question.id q))
            (catQuestions cat) 0.

(** [level] and [color] after the two [if]s on [score]; full marks are
    15 (5 questions of 3). *)
Definition levelColor (score : Z) : Level * string :=
  if decide (12 <= score) then (GreenLight, "#22c55e")
  else if decide (7 <= score) then (YellowLight, "#f97316")
  else (RedLight, "#ef4444").

Definition levelOf (score : Z) : Level := fst (levelColor score).

Definition colorOf (score : Z) : string := snd (levelColor score).

(** The body of [categories.map(cat => ...)]. *)
Definition dimension (answers : gmap Z Z) (cat : Category)
  : DimensionResult.t :=
  let score := catScore answers cat in
  let level := levelOf score in
  DimensionResult.mk cat score level (colorOf score)
    (description (CATEGORY_INFO cat))
    (suggestions (CATEGORY_INFO cat) level).

Definition localSummary (step : Step) (answers : gmap Z Z)
  : option Summary :=
  if decide (step <> result /\ step <> diagnosing) then None
  else
    let summary := map (dimension answers) categories in
    let totalScore :=
      fold_left (fun acc curr => acc + DimensionResult.score curr)
                summary 0 in
    Some {| summary := summary; totalScore := totalScore |}.

End Engine.

(** ** The memo cell around [localSummary]

    [useMemo(fn, [step, answers])] keeps the dependencies and the value
    of the last computation; a render whose dependencies are the stored
    ones returns the stored value, any other render runs [fn] again and
    overwrites the cell. [answers] is replaced, never written in place
    ([setAnswers(prev => ({ ...prev, ... }))]), so the stored
    dependencies are compared by their contents. *)

Record MemoCell : Type :=
  { memoStep : Step;
    memoAnswers : gmap Z Z;
    memoValue : option Summary }.

Section Memo.

Variable QUESTIONS : list Question.t.
Variable CATEGORY_INFO : Category -> CategoryInfo.

Definition useMemo (cell : option MemoCell) (step : Step)
  (answers : gmap Z Z) : option Summary * option MemoCell :=
  let fresh :=
    let v := localSummary QUESTIONS CATEGORY_INFO step answers in
    (v, Some {| memoStep := step; memoAnswers := answers;
                memoValue := v |}) in
  match cell with
  | Some c =>
      if decide (memoStep c = step /\ memoAnswers c = answers)
      then (memoValue c, cell)
      else fresh
  | None => fresh
  end.

(** Successive renders, each with the [step] and [answers] of its
    time; the values [localSummary] had in them, and the last cell. *)
Fixpoint renders (cell : option MemoCell)
  (inputs : list (Step * gmap Z Z))
  : list (option Summary) * option MemoCell :=
  match inputs with
  | [] => ([], cell)
  | (step, answers) :: rest =>
      let '(v, cell') := useMemo cell step answers in
      let '(vs, last) := renders cell' rest in
      (v :: vs, last)
  end.

(** What a cell may hold after any number of renders. *)
Definition coherent (cell : option MemoCell) : Prop :=
  match cell with
  | Some c =>
      memoValue c =
      localSummary QUESTIONS CATEGORY_INFO (memoStep c) (memoAnswers c)
  | None => True
  end.

End Memo.

(** ** Fallback persona of [runDiagnosis] *)

Record AiReport : Type :=
  { selectedPersonaId : string;
    personaExplanation : string;
    personaOverview : string;
    skinAnalysis : string;
    hairAnalysis : string;
    styleAnalysis : string;
    socialAnalysis : string;
    coachGeneralAdvice : string }.

(** [let fallbackId = 'neighbor'; if ... else if ... else if ...]. *)
Definition fallbackId (totalScore : Z) : string :=
  if decide (48 <= totalScore) then "charmer"
  else if decide (38 <= totalScore) then "statue"
  else if decide (totalScore <= 20) then "pioneer"
  else "neighbor".

Definition fallbackAnalysis (forceFallback : bool) (s : Summary)
  : AiReport :=
  {| selectedPersonaId := fallbackId (totalScore s);
     personaExplanation :=
       if forceFallback
       then "⚠️ 這是「基礎分析模式」的報告。因目前 AI 連線異常，系統直接根據您的分數區間進行診斷。"
       else "⚠️ AI 連線忙碌中，這是根據您的分數生成的基礎報告。";
     personaOverview := "您的潛力巨大，建議重新整理頁面再次進行深度分析。";
     skinAnalysis := "保養是基本功，請建立每日SOP。";
     hairAnalysis := "髮型決定第一印象，請尋找合適設計師。";
     styleAnalysis := "穿搭需要策略，請注重版型與修飾。";
     socialAnalysis := "經營社群就是經營個人品牌。";
     coachGeneralAdvice :=
       "這是一份基礎戰略報告。請參考上方的雷達圖與維度分析，這依然是你提升魅力的重要起點。若需 **完整的 AI 深度解析**，建議稍後再試。" |}.

(** The ids the prompt of [runDiagnosis] lets the model choose from:
    [charmer, statue, hustler, neighbor, sage, pioneer]. *)
Definition personaIds : list string :=
  ["charmer"; "statue"; "hustler"; "neighbor"; "sage"; "pioneer"].

(** ** Persona lookup *)

Module Persona.
Record t : Type := mk
  { id : string;
    title : string;
    subtitle : string;
    tags : list string;
    imageUrl : string }.
End Persona.

(** [String.prototype.toLowerCase] on a string whose letters are
    ASCII: [A]..[Z] go to [a]..[z], every other byte stays. On a
    letter outside ASCII that has a lower-case form the builtin does
    more; what is stated for every id takes the builtin as a parameter
    ([activePersonaWith]). *)
Definition lowerAscii (c : ascii) : ascii :=
  let n := nat_of_ascii c in
  if ((65 <=? n) && (n <=? 90))%nat then ascii_of_nat (n + 32) else c.

(** An upper-case ASCII letter. *)
Definition isUpper (c : ascii) : bool :=
  ((65 <=? nat_of_ascii c) && (nat_of_ascii c <=? 90))%nat.

Fixpoint toLowerCase (s : string) : string :=
  match s with
  | EmptyString => EmptyString
  | String c rest => String (lowerAscii c) (toLowerCase rest)
  end.

(** [String.prototype.trim] removes the white space and the line
    terminators of ECMAScript, here by their UTF-8 encoding. One byte:
    TAB, LF, VT, FF, CR and SPACE. *)
Definition isWhiteSpace (c : ascii) : bool :=
  let n := nat_of_ascii c in
  (((9 <=? n) && (n <=? 13)) || (n =? 32))%nat.

(** Two bytes: U+00A0 (C2 A0). *)
Definition isWhiteSpace2 (c1 c2 : ascii) : bool :=
  ((nat_of_ascii c1 =? 194) && (nat_of_ascii c2 =? 160))%nat.

(** Three bytes: U+1680 (E1 9A 80), U+2000..U+200A (E2 80 80..8A),
    U+2028 and U+2029 (E2 80 A8, E2 80 A9), U+202F (E2 80 AF),
    U+205F (E2 81 9F), U+3000 (E3 80 80) and U+FEFF (EF BB BF). *)
Definition isWhiteSpace3 (c1 c2 c3 : ascii) : bool :=
  let n1 := nat_of_ascii c1 in
  let n2 := nat_of_ascii c2 in
  let n3 := nat_of_ascii c3 in
  (((n1 =? 225) && (n2 =? 154) && (n3 =? 128))
   || ((n1 =? 226) && (n2 =? 128)
       && (((128 <=? n3) && (n3 <=? 138))
           || (n3 =? 168) || (n3 =? 169) || (n3 =? 175)))
   || ((n1 =? 226) && (n2 =? 129) && (n3 =? 159))
   || ((n1 =? 227) && (n2 =? 128) && (n3 =? 128))
   || ((n1 =? 239) && (n2 =? 187) && (n3 =? 191)))%nat.

Fixpoint trimStart (s : string) : string :=
  match s with
  | EmptyString => EmptyString
  | String c1 r1 =>
      if isWhiteSpace c1 then trimStart r1
      else
        match r1 with
        | EmptyString => s
        | String c2 r2 =>
            if isWhiteSpace2 c1 c2 then trimStart r2
            else
              match r2 with
              | EmptyString => s
              | String c3 r3 =>
                  if isWhiteSpace3 c1 c2 c3 then trimStart r3 else s
              end
        end
  end.

Fixpoint revOnto (s acc : string) : string :=
  match s with
  | EmptyString => acc
  | String c rest => revOnto rest (String c acc)
  end.

(** [trimStart] on the bytes in reverse order: the last byte of a
    character comes first. *)
Fixpoint trimStartRev (s : string) : string :=
  match s with
  | EmptyString => EmptyString
  | String c1 r1 =>
      if isWhiteSpace c1 then trimStartRev r1
      else
        match r1 with
        | EmptyString => s
        | String c2 r2 =>
            if isWhiteSpace2 c2 c1 then trimStartRev r2
            else
              match r2 with
              | EmptyString => s
              | String c3 r3 =>
                  if isWhiteSpace3 c3 c2 c1 then trimStartRev r3 else s
              end
        end
  end.

Definition trimEnd (s : string) : string :=
  revOnto (trimStartRev (revOnto s EmptyString)) EmptyString.

Definition trim (s : string) : string := trimEnd (trimStart s).

(** A string that starts with no white space of one, two or three
    bytes. *)
Definition startsClean (s : string) : Prop :=
  match s with
  | EmptyString => True
  | String c1 r1 =>
      isWhiteSpace c1 = false /\
      match r1 with
      | EmptyString => True
      | String c2 r2 =>
          isWhiteSpace2 c1 c2 = false /\
          match r2 with
          | EmptyString => True
          | String c3 _ => isWhiteSpace3 c1 c2 c3 = false
          end
      end
  end.

Section Personas.

(** [PERSONAS] comes from [constants.ts]. *)
Variable PERSONAS : list Persona.t.

(** [PERSONAS.find(p => p.id === wanted)]. *)
Definition findPersona (wanted : string) : option Persona.t :=
  List.find (fun p => bool_decide (Persona.id p = wanted)) PERSONAS.

(** [a || b] where [a] is an object or [undefined]. *)
Definition orElse {A : Type} (a b : option A) : option A :=
  match a with
  | Some x => Some x
  | None => b
  end.

Section Builtins.

(** [String.prototype.toLowerCase] and [String.prototype.trim] of the
    runtime the page runs in. *)
Variable jsToLowerCase jsTrim : string -> string.

(** [activePersona] of [App.tsx]; [None] is [undefined]. *)
Definition activePersonaWith (aiAnalysis : option AiReport)
  : option Persona.t :=
  match aiAnalysis with
  | None => PERSONAS !! 5%nat
  | Some report =>
      let normalizedId := jsTrim (jsToLowerCase (selectedPersonaId report)) in
      let found := findPersona normalizedId in
      orElse found (PERSONAS !! 5%nat)
  end.

(** [normalizedId] and [personaData] of [sendResultsToWebhook]; the
    empty string is falsy. *)
Definition webhookNormalizedIdWith (report : AiReport) : string :=
  if decide (selectedPersonaId report = EmptyString) then "neighbor"
  else jsTrim (jsToLowerCase (selectedPersonaId report)).

Definition webhookPersonaWith (report : AiReport) : option Persona.t :=
  orElse (findPersona (webhookNormalizedIdWith report))
    (orElse (findPersona "neighbor") (PERSONAS !! 3%nat)).

End Builtins.

(** The two lookups with [toLowerCase] and [trim] as given above. *)
Definition activePersona (aiAnalysis : option AiReport)
  : option Persona.t :=
  activePersonaWith toLowerCase trim aiAnalysis.

Definition webhookNormalizedId (report : AiReport) : string :=
  webhookNormalizedIdWith toLowerCase trim report.

Definition webhookPersona (report : AiReport) : option Persona.t :=
  webhookPersonaWith toLowerCase trim report.

End Personas.

(** ** The 48-point sibling of [App.tsx]

    The earlier copy of the page: four other categories of four
    questions, no [color], other thresholds, and a fallback persona
    with a single cut. *)

Module Variant48.

(** '形象外表' | '社群形象' | '行動與互動' | '心態與習慣'. *)
Inductive Category : Type :=
  | Appearance         (* 形象外表 *)
  | SocialImage        (* 社群形象 *)
  | ActionInteraction  (* 行動與互動 *)
  | MindsetHabits.     (* 心態與習慣 *)

#[global] Instance Category_eq_dec : EqDecision Category.
Proof. solve_decision. Defined.

Module Question.
Record t : Type := mk
  { id : Z;
    category : Category;
    text : string }.
End Question.

Module DimensionResult.
Record t : Type := mk
  { category : Category;
    score : Z;
    level : Level;
    description : string;
    suggestion : string }.
End DimensionResult.

Record Summary : Type :=
  { summary : list DimensionResult.t;
    totalScore : Z }.

Section Engine.

Variable QUESTIONS : list Question.t.
Variable CATEGORY_INFO : Category -> CategoryInfo.

Definition categories : list Category :=
  [Appearance; SocialImage; ActionInteraction; MindsetHabits].

Definition catQuestions (cat : Category) : list Question.t :=
  filter (fun q => Question.category q = cat) QUESTIONS.

Definition catScore (answers : gmap Z Z) (cat : Category) : Z :=
  fold_left (fun acc q => acc + addend (answers !! Question.id q))
            (catQuestions cat) 0.

(** Full marks are 12 (4 questions of 3). *)
Definition levelOf (score : Z) : Level :=
  if decide (9 <= score) then GreenLight
  else if decide (5 <= score) then YellowLight
  else RedLight.

Definition dimension (answers : gmap Z Z) (cat : Category)
  : DimensionResult.t :=
  let score := catScore answers cat in
  let level := levelOf score in
  DimensionResult.mk cat score level
    (description (CATEGORY_INFO cat))
    (suggestions (CATEGORY_INFO cat) level).

Definition localSummary (step : Step) (answers : gmap Z Z)
  : option Summary :=
  if decide (step <> result /\ step <> diagnosing) then None
  else
    let summary := map (dimension answers) categories in
    let totalScore :=
      fold_left (fun acc curr => acc + DimensionResult.score curr)
                summary 0 in
    Some {| summary := summary; totalScore := totalScore |}.

End Engine.

(** [localSummary.totalScore > 36 ? 'charmer' : 'neighbor']. *)
Definition fallbackId (totalScore : Z) : string :=
  if decide (36 < totalScore) then "charmer" else "neighbor".

End Variant48.

(** ** Tables for the examples *)

(** Modelled from the spec: the [QUESTIONS] table of [constants.ts],
    which is not part of the sources. Four categories of five questions
    in display order (the quiz shows a category intro every fifth
    question), ids 1 to 20; the wording of a question plays no part in
    scoring and is left empty. *)
Definition QUESTIONS20 : list Question.t :=
  map (fun i => Question.mk i FaceComplexion EmptyString) [1; 2; 3; 4; 5]
  ++ map (fun i => Question.mk i HairStyling EmptyString) [6; 7; 8; 9; 10]
  ++ map (fun i => Question.mk i OutfitStrategy EmptyString)
         [11; 12; 13; 14; 15]
  ++ map (fun i => Question.mk i SocialImage EmptyString)
         [16; 17; 18; 19; 20].

(** Modelled from the spec: the [CATEGORY_INFO] table of
    [constants.ts]; its texts are copied into the result and read by
    nothing in the engine, so they are left empty. *)
Definition CATEGORY_INFO0 (cat : Category) : CategoryInfo :=
  {| description := EmptyString; suggestions := fun _ => EmptyString |}.

(** Modelled from the spec: the [PERSONAS] table of [constants.ts], a
    closed set of six personas; ids and order are those of the prompt
    in [runDiagnosis], the other fields are left empty. *)
Definition PERSONAS6 : list Persona.t :=
  map (fun i => Persona.mk i EmptyString EmptyString [] EmptyString)
      personaIds.

(** The answers of a user who picked [v] for every question of
    [QUESTIONS20]. *)
Definition allAnswered (v : Z) : gmap Z Z :=
  list_to_map (map (fun q => (Question.id q, v)) QUESTIONS20).

(** The questions of [cat] that carry an answer other than the
    sentinel, with the value chosen for each. *)
Definition chosenValues (QUESTIONS : list Question.t)
  (answers : gmap Z Z) (cat : Category) : list Z :=
  omap (fun q =>
          match answers !! Question.id q with
          | Some v => if decide (v = -1) then None else Some v
          | None => None
          end)
       (catQuestions QUESTIONS cat).

(** Sum of a list of integers. *)
Definition sumZ (l : list Z) : Z := foldr Z.add 0 l.

(** Answers of a user part of the way through the quiz: two questions
    of the first category (one of them "unsure") and one of the
    second. *)
Definition partialAnswers : gmap Z Z := {[ 1 := 3; 2 := -1; 7 := 2 ]}.

(** The number of questions of a category ("5題"). *)
Definition questionsPerCategory : nat := 5.

(** A report as the AI path returns it, reduced to its persona id. *)
Definition reportWith (rawId : string) : AiReport :=
  {| selectedPersonaId := rawId;
     personaExplanation := EmptyString;
     personaOverview := EmptyString;
     skinAnalysis := EmptyString;
     hairAnalysis := EmptyString;
     styleAnalysis := EmptyString;
     socialAnalysis := EmptyString;
     coachGeneralAdvice := EmptyString |}.

(** The string ["  Charmer \t"] of the normalization example. *)
Definition paddedCharmer : string :=
  "  Charmer " ++ String (ascii_of_nat 9) EmptyString.

(** U+3000 IDEOGRAPHIC SPACE and U+00A0 NO-BREAK SPACE, and the id
    [Sage] between them. *)
Definition ideographicSpace : string :=
  String (ascii_of_nat 227)
    (String (ascii_of_nat 128) (String (ascii_of_nat 128) EmptyString)).

Definition noBreakSpace : string :=
  String (ascii_of_nat 194) (String (ascii_of_nat 160) EmptyString).

Definition paddedSage : string :=
  ideographicSpace ++ "Sage" ++ noBreakSpace.

(** A table of six rows with no [neighbor] row, for the last default
    of the lookup of the mail. *)
Definition PERSONAS_without_neighbor : list Persona.t :=
  map (fun i => Persona.mk i EmptyString EmptyString [] EmptyString)
      ["charmer"; "statue"; "hustler"; "guest"; "sage"; "pioneer"].

(** Another user, who agrees with [partialAnswers] on the first
    category and differs elsewhere. *)
Definition otherAnswers : gmap Z Z :=
  {[ 1 := 3; 2 := -1; 7 := 0; 12 := 3; 20 := 1 ]}.

(** The mixed scenario: three categories at 8 of 15 and the last one
    at 14 of 15. *)
Definition mixedAnswers : gmap Z Z :=
  list_to_map
    [(1, 3); (2, 3); (3, 2); (4, 0); (5, 0);
     (6, 3); (7, 3); (8, 2); (9, 0); (10, 0);
     (11, 3); (12, 3); (13, 2); (14, 0); (15, 0);
     (16, 3); (17, 3); (18, 3); (19, 3); (20, 2)].

(** Modelled from the spec: the [QUESTIONS] table of the 48-point copy,
    four categories of four questions in display order, ids 1 to 16. *)
Definition QUESTIONS16 : list Variant48.Question.t :=
  map (fun i => Variant48.Question.mk i Variant48.Appearance EmptyString)
      [1; 2; 3; 4]
  ++ map (fun i => Variant48.Question.mk i Variant48.SocialImage EmptyString)
         [5; 6; 7; 8]
  ++ map (fun i => Variant48.Question.mk i Variant48.ActionInteraction
                     EmptyString)
         [9; 10; 11; 12]
  ++ map (fun i => Variant48.Question.mk i Variant48.MindsetHabits
                     EmptyString)
         [13; 14; 15; 16].

Definition CATEGORY_INFO48 (cat : Variant48.Category) : CategoryInfo :=
  {| description := EmptyString; suggestions := fun _ => EmptyString |}.

(** The answers of a user who picked [v] for the questions 1 to [n]. *)
Definition answeredUpTo (n : nat) (v : Z) : gmap Z Z :=
  list_to_map (map (fun i => (Z.of_nat i, v)) (seq 1 n)).

(** ** The page state and its handlers

    The [useState] and [useRef] cells of [App] that the handlers read
    or write. [fakeProgress], a float driven by a timer, and the
    canvas refs are left out: no handler below reads them.

    A handler is a closure of the render it was created in: it reads
    [currentIdx] and [isIntroMode] as that render saw them, and its
    setters act on the state of the time it runs. So a handler takes
    two states, the captured one [c] and the current one [s]; for a
    click on a button of the screen on display they are the same. *)

Module Opt.
Record t : Type := mk
  { value : Z;
    label : string }.
End Opt.

Module AppState.
Record t : Type := mk
  { step : Step;
    currentIdx : Z;
    isIntroMode : bool;
    answers : gmap Z Z;
    aiAnalysis : option AiReport;
    isAiLoading : bool;
    customApiKey : string;
    showKeyInput : bool;
    aiFetchingRef : bool;
    lastFetchTimeRef : Z;
    lastError : string }.
End AppState.

(** The initial values of the cells. *)
Definition initialState : AppState.t :=
  AppState.mk hero 0 true ∅ None false EmptyString false false 0
    EmptyString.

Definition setStep (v : Step) (s : AppState.t) : AppState.t :=
  AppState.mk v (AppState.currentIdx s) (AppState.isIntroMode s)
    (AppState.answers s) (AppState.aiAnalysis s) (AppState.isAiLoading s)
    (AppState.customApiKey s) (AppState.showKeyInput s)
    (AppState.aiFetchingRef s) (AppState.lastFetchTimeRef s)
    (AppState.lastError s).

Definition setCurrentIdx (v : Z) (s : AppState.t) : AppState.t :=
  AppState.mk (AppState.step s) v (AppState.isIntroMode s)
    (AppState.answers s) (AppState.aiAnalysis s) (AppState.isAiLoading s)
    (AppState.customApiKey s) (AppState.showKeyInput s)
    (AppState.aiFetchingRef s) (AppState.lastFetchTimeRef s)
    (AppState.lastError s).

Definition setIsIntroMode (v : bool) (s : AppState.t) : AppState.t :=
  AppState.mk (AppState.step s) (AppState.currentIdx s) v
    (AppState.answers s) (AppState.aiAnalysis s) (AppState.isAiLoading s)
    (AppState.customApiKey s) (AppState.showKeyInput s)
    (AppState.aiFetchingRef s) (AppState.lastFetchTimeRef s)
    (AppState.lastError s).

Definition setAnswers (v : gmap Z Z) (s : AppState.t) : AppState.t :=
  AppState.mk (AppState.step s) (AppState.currentIdx s)
    (AppState.isIntroMode s) v (AppState.aiAnalysis s)
    (AppState.isAiLoading s) (AppState.customApiKey s)
    (AppState.showKeyInput s) (AppState.aiFetchingRef s)
    (AppState.lastFetchTimeRef s) (AppState.lastError s).

Definition setAiAnalysis (v : option AiReport) (s : AppState.t)
  : AppState.t :=
  AppState.mk (AppState.step s) (AppState.currentIdx s)
    (AppState.isIntroMode s) (AppState.answers s) v
    (AppState.isAiLoading s) (AppState.customApiKey s)
    (AppState.showKeyInput s) (AppState.aiFetchingRef s)
    (AppState.lastFetchTimeRef s) (AppState.lastError s).

Definition setIsAiLoading (v : bool) (s : AppState.t) : AppState.t :=
  AppState.mk (AppState.step s) (AppState.currentIdx s)
    (AppState.isIntroMode s) (AppState.answers s) (AppState.aiAnalysis s)
    v (AppState.customApiKey s) (AppState.showKeyInput s)
    (AppState.aiFetchingRef s) (AppState.lastFetchTimeRef s)
    (AppState.lastError s).

Definition setCustomApiKey (v : string) (s : AppState.t) : AppState.t :=
  AppState.mk (AppState.step s) (AppState.currentIdx s)
    (AppState.isIntroMode s) (AppState.answers s) (AppState.aiAnalysis s)
    (AppState.isAiLoading s) v (AppState.showKeyInput s)
    (AppState.aiFetchingRef s) (AppState.lastFetchTimeRef s)
    (AppState.lastError s).

Definition setShowKeyInput (v : bool) (s : AppState.t) : AppState.t :=
  AppState.mk (AppState.step s) (AppState.currentIdx s)
    (AppState.isIntroMode s) (AppState.answers s) (AppState.aiAnalysis s)
    (AppState.isAiLoading s) (AppState.customApiKey s) v
    (AppState.aiFetchingRef s) (AppState.lastFetchTimeRef s)
    (AppState.lastError s).

Definition setAiFetchingRef (v : bool) (s : AppState.t) : AppState.t :=
  AppState.mk (AppState.step s) (AppState.currentIdx s)
    (AppState.isIntroMode s) (AppState.answers s) (AppState.aiAnalysis s)
    (AppState.isAiLoading s) (AppState.customApiKey s)
    (AppState.showKeyInput s) v (AppState.lastFetchTimeRef s)
    (AppState.lastError s).

Definition setLastFetchTimeRef (v : Z) (s : AppState.t) : AppState.t :=
  AppState.mk (AppState.step s) (AppState.currentIdx s)
    (AppState.isIntroMode s) (AppState.answers s) (AppState.aiAnalysis s)
    (AppState.isAiLoading s) (AppState.customApiKey s)
    (AppState.showKeyInput s) (AppState.aiFetchingRef s) v
    (AppState.lastError s).

Definition setLastError (v : string) (s : AppState.t) : AppState.t :=
  AppState.mk (AppState.step s) (AppState.currentIdx s)
    (AppState.isIntroMode s) (AppState.answers s) (AppState.aiAnalysis s)
    (AppState.isAiLoading s) (AppState.customApiKey s)
    (AppState.showKeyInput s) (AppState.aiFetchingRef s)
    (AppState.lastFetchTimeRef s) v.

(** [arr[i]] for a [number] index: [undefined] below 0 and from the
    length on. *)
Definition at_index {A : Type} (l : list A) (i : Z) : option A :=
  if decide (0 <= i) then l !! Z.to_nat i else None.

(** [s.includes(sub)]. *)
Fixpoint includes (s sub : string) : bool :=
  String.prefix sub s ||
  match s with
  | EmptyString => false
  | String _ rest => includes rest sub
  end.

(** What the AI call of [runDiagnosis] came to: the value
    [JSON.parse] gave, or an exception with its [toString()] (no text
    in the response and a text that is not JSON are exceptions too).
    The value is stored as it is: [None] is [null] (or another falsy
    value, which every test of [aiAnalysis] takes for [null]); an
    object is held under the fields its cast [as AiReport] names, and
    the handlers and the guards of the screens test only that it is
    not [null]. *)
Inductive AiOutcome : Type :=
  | AiReturned (parsedData : option AiReport)
  | AiThrew (errString : string).

Section Page.

Variable QUESTIONS : list Question.t.
Variable CATEGORY_INFO : Category -> CategoryInfo.
(** [OPTIONS] of [constants.ts]. *)
Variable OPTIONS : list Opt.t.
(** [process.env.GEMINI_API_KEY], fixed when the page is built. *)
Variable GEMINI_API_KEY : string.

Definition handleStart (s : AppState.t) : AppState.t :=
  setLastFetchTimeRef 0
    (setAiFetchingRef false
      (setShowKeyInput false
        (setLastError EmptyString
          (setAiAnalysis None
            (setAnswers ∅
              (setIsIntroMode true
                (setCurrentIdx 0
                  (setStep quiz s)))))))).

Definition nextStep (c s : AppState.t) : AppState.t :=
  if AppState.isIntroMode c then setIsIntroMode false s
  else if decide (AppState.currentIdx c < Z.of_nat (length QUESTIONS) - 1)
  then
    let nextIdx := AppState.currentIdx c + 1 in
    setCurrentIdx nextIdx
      (if decide (Z.rem nextIdx 5 = 0) then setIsIntroMode true s else s)
  else setStep diagnosing s.

(** [setCurrentIdx(prev => prev - 1)] reads the current state, the
    other branches the captured one. *)
Definition prevStep (c s : AppState.t) : AppState.t :=
  if AppState.isIntroMode c then
    if decide (0 < AppState.currentIdx c)
    then setCurrentIdx (AppState.currentIdx c - 1) (setIsIntroMode false s)
    else setStep hero s
  else if decide (Z.rem (AppState.currentIdx c) 5 = 0)
  then setIsIntroMode true s
  else setCurrentIdx (AppState.currentIdx s - 1) s.

(** The synchronous part of [handleAnswer]; [None] when
    [QUESTIONS[currentIdx]] is [undefined] and reading its [id]
    throws. The [nextStep] it schedules is that of the same render. *)
Definition handleAnswer (val : Z) (c s : AppState.t) : option AppState.t :=
  match at_index QUESTIONS (AppState.currentIdx c) with
  | Some q => Some (setAnswers (<[Question.id q := val]> (AppState.answers s)) s)
  | None => None
  end.

(** The value of the [localSummary] memo in state [s]. *)
Definition summaryOf (s : AppState.t) : option Summary :=
  localSummary QUESTIONS CATEGORY_INFO (AppState.step s) (AppState.answers s).

(** The [catch] block of [runDiagnosis]: the message, and whether the
    key input is shown. [slice(0, 30)] counts UTF-16 code units, the
    cut here counts bytes: the two agree on an ASCII error text, and
    nothing below depends on where the cut falls. *)
Definition errorMessage (errString : string) : string * bool :=
  if includes errString "400" && includes errString "API key"
  then ("⚠️ API Key 無效", true)
  else if includes errString "429"
  then ("⚠️ 請求次數過多", true)
  else ("⚠️ 發生錯誤: " ++ String.substring 0 30 errString ++ "...", false).

(** [a || b] on strings: the empty string is falsy. *)
Definition orString (a b : string) : string :=
  if decide (a = EmptyString) then b else a.

(** [runDiagnosis], from the call to the last state update it causes;
    [now] is [Date.now()] and [outcome] what the AI call comes to. *)
Definition runDiagnosis (forceFallback : bool) (overrideKey : string)
  (now : Z) (outcome : AiOutcome) (s : AppState.t) : AppState.t :=
  match summaryOf s with
  | None => s
  | Some ls =>
      if AppState.aiFetchingRef s && negb forceFallback
         && bool_decide (overrideKey = EmptyString)
      then s
      else if negb forceFallback && bool_decide (overrideKey = EmptyString)
              && bool_decide (now - AppState.lastFetchTimeRef s < 2000)
      then s
      else
        let s1 :=
          setShowKeyInput false
            (setLastError EmptyString
              (setIsAiLoading true
                (setLastFetchTimeRef now
                  (setAiFetchingRef true s)))) in
        if forceFallback then
          setAiFetchingRef false
            (setIsAiLoading false
              (setAiAnalysis (Some (fallbackAnalysis forceFallback ls)) s1))
        else
          let apiKeyToUse :=
            orString overrideKey
              (orString (AppState.customApiKey s) GEMINI_API_KEY) in
          if decide (apiKeyToUse = EmptyString) then
            setAiFetchingRef false
              (setIsAiLoading false
                (setShowKeyInput true
                  (setLastError "系統設定：請輸入 API Key" s1)))
          else
            match outcome with
            | AiReturned parsedData =>
                setIsAiLoading false (setAiAnalysis parsedData s1)
            | AiThrew errString =>
                let '(errorMsg, showKey) := errorMessage errString in
                setIsAiLoading false
                  (setAiFetchingRef false
                    (setLastError errorMsg
                      (if showKey then setShowKeyInput true s1 else s1)))
            end
  end.

(** The condition of the effect that starts the diagnosis. *)
Definition autoDiagnosis (s : AppState.t) : bool :=
  bool_decide (AppState.step s = diagnosing)
  && bool_decide (is_Some (summaryOf s))
  && negb (AppState.aiFetchingRef s)
  && bool_decide (AppState.lastError s = EmptyString)
  && bool_decide (AppState.aiAnalysis s = None)
  && negb (AppState.showKeyInput s).

(** What the user and the effects can do. The numbers and outcomes
    are those of the environment at that time. *)
Inductive Event : Type :=
  | ClickStart
  | ClickNext
  | ClickPrev
  | ClickOption (i : nat)
  | AutoDiagnosis (now : Z) (outcome : AiOutcome)
  | ClickRetry (now : Z) (outcome : AiOutcome)
  | ClickSkip (now : Z)
  | TypeKey (key : string)
  | ShowResult.

(** One event on the screen on display. A button that is not on the
    screen cannot be clicked: the state stays as it is. The [nextStep]
    an answer schedules, and the state updates a diagnosis causes
    later, are run before the next event. [None]: a handler threw. *)
Definition dispatch (e : Event) (s : AppState.t) : option AppState.t :=
  match e with
  | ClickStart =>
      if bool_decide (AppState.step s = hero)
         || (bool_decide (AppState.step s = result)
             && bool_decide (is_Some (summaryOf s))
             && bool_decide (is_Some (AppState.aiAnalysis s)))
      then Some (handleStart s) else Some s
  | ClickNext =>
      if bool_decide (AppState.step s = quiz) && AppState.isIntroMode s
      then Some (nextStep s s) else Some s
  | ClickPrev =>
      if bool_decide (AppState.step s = quiz)
      then Some (prevStep s s) else Some s
  | ClickOption i =>
      if bool_decide (AppState.step s = quiz) && negb (AppState.isIntroMode s)
      then
        match OPTIONS !! i with
        | Some opt => nextStep s <$> handleAnswer (Opt.value opt) s s
        | None => Some s
        end
      else Some s
  | AutoDiagnosis now outcome =>
      if autoDiagnosis s
      then Some (runDiagnosis false EmptyString now outcome s) else Some s
  | ClickRetry now outcome =>
      if bool_decide (AppState.step s = diagnosing)
         && negb (bool_decide (AppState.lastError s = EmptyString))
         && (negb (AppState.showKeyInput s)
             || negb (bool_decide (AppState.customApiKey s = EmptyString)))
      then Some (runDiagnosis false EmptyString now outcome s) else Some s
  | ClickSkip now =>
      if bool_decide (AppState.step s = diagnosing)
         && negb (bool_decide (AppState.lastError s = EmptyString))
      then Some (runDiagnosis true EmptyString now (AiThrew EmptyString) s)
      else Some s
  | TypeKey key =>
      if bool_decide (AppState.step s = diagnosing)
         && negb (bool_decide (AppState.lastError s = EmptyString))
         && AppState.showKeyInput s
      then Some (setCustomApiKey key s) else Some s
  | ShowResult =>
      if bool_decide (AppState.step s = diagnosing)
         && bool_decide (is_Some (AppState.aiAnalysis s))
      then Some (setStep result s) else Some s
  end.

Fixpoint run (events : list Event) (s : AppState.t) : option AppState.t :=
  match events with
  | [] => Some s
  | e :: rest =>
      match dispatch e s with
      | Some s' => run rest s'
      | None => None
      end
  end.

End Page.

(** ** Text with [**] marks *)

(** What [renderFormattedText] returns for one part: the bare string,
    or a [span] with its class. *)
Inductive Node : Type :=
  | TextNode (text : string)
  | SpanNode (className : string) (text : string).

Definition nodeText (n : Node) : string :=
  match n with
  | TextNode text => text
  | SpanNode _ text => text
  end.

(** Puts [c] in front of the first part. *)
Definition consFirst (c : ascii) (parts : list string) : list string :=
  match parts with
  | p :: ps => String c p :: ps
  | [] => [String c EmptyString]
  end.

(** [s.split('**')]: the marks are found from the left and do not
    overlap; the empty string gives one empty part. *)
Fixpoint splitStars (s : string) : list string :=
  match s with
  | EmptyString => [EmptyString]
  | String c rest =>
      match rest with
      | String c2 rest' =>
          if Ascii.eqb c "*" && Ascii.eqb c2 "*"
          then EmptyString :: splitStars rest'
          else consFirst c (splitStars rest)
      | EmptyString => consFirst c (splitStars rest)
      end
  end.

Definition renderFormattedText (text highlightClass : string)
  : option (list Node) :=
  if decide (text = EmptyString) then None
  else
    Some (imap (fun index part =>
                  if decide (Nat.modulo index 2 = 1%nat)
                  then SpanNode (highlightClass ++ " font-black") part
                  else TextNode part)
               (splitStars text)).

(** The double quote, as a string. *)
Definition dquote : string := String (ascii_of_nat 34) EmptyString.

(** [text.replace(/\n/g, '<br/>')]. *)
Fixpoint replaceNewlines (s : string) : string :=
  match s with
  | EmptyString => EmptyString
  | String c rest =>
      if Ascii.eqb c (ascii_of_nat 10)
      then "<br/>" ++ replaceNewlines rest
      else String c (replaceNewlines rest)
  end.

(** [convertToHtmlString] of the pages with the webhook. *)
Definition convertToHtmlString (text highlightColor : string) : string :=
  if decide (text = EmptyString) then EmptyString
  else
    let html := replaceNewlines text in
    String.concat EmptyString
      (imap (fun index part =>
               if decide (Nat.modulo index 2 = 1%nat)
               then "<span style=" ++ dquote ++ "color: " ++ highlightColor
                    ++ "; font-weight: bold;" ++ dquote ++ ">" ++ part
                    ++ "</span>"
               else "<span>" ++ part ++ "</span>")
            (splitStars html)).

(** ** Image addresses *)

(** [s.endsWith(suffix)]. *)
Definition endsWith (s suffix : string) : bool :=
  String.prefix (revOnto suffix EmptyString) (revOnto s EmptyString).

(** The characters [encodeURIComponent] leaves as they are. *)
Definition isUnreserved (c : ascii) : bool :=
  let n := nat_of_ascii c in
  (((65 <=? n) && (n <=? 90)) || ((97 <=? n) && (n <=? 122))
   || ((48 <=? n) && (n <=? 57))
   || (n =? 45) || (n =? 95) || (n =? 46) || (n =? 33) || (n =? 126)
   || (n =? 42) || (n =? 39) || (n =? 40) || (n =? 41))%nat.

Definition hexDigit (n : nat) : ascii :=
  if (n <? 10)%nat then ascii_of_nat (48 + n)%nat
  else ascii_of_nat (55 + n)%nat.

(** [encodeURIComponent] on the bytes of the UTF-8 form of a string. *)
Fixpoint encodeURIComponent (s : string) : string :=
  match s with
  | EmptyString => EmptyString
  | String c rest =>
      if isUnreserved c then String c (encodeURIComponent rest)
      else
        String "%"
          (String (hexDigit (Nat.div (nat_of_ascii c) 16%nat))
             (String (hexDigit (Nat.modulo (nat_of_ascii c) 16%nat))
                (encodeURIComponent rest)))
  end.

Definition convertSvgToPngUrl (url : string) : string :=
  if decide (url = EmptyString) then EmptyString
  else if endsWith url ".svg"
  then "https://wsrv.nl/?url=" ++ encodeURIComponent url ++ "&output=png"
  else url.

(** ** The scores of the report sent by mail *)

Record CatData : Type :=
  { cdScore : Z;
    cdLevel : Level;
    cdColor : string;
    cdBgColor : string;
    cdTextColor : string }.

(** [getCatData] of [sendResultsToWebhook]; [item] is [undefined]
    when the summary has no entry for the category. *)
Definition getCatData (summaryData : Summary) (catName : Category)
  : CatData :=
  let item :=
    List.find (fun s => bool_decide (DimensionResult.category s = catName))
              (summary summaryData) in
  let '(statusColor, statusBg, statusText) :=
    if decide (DimensionResult.level <$> item = Some GreenLight)
    then ("#22c55e", "#f0fdf4", "#15803d")
    else if decide (DimensionResult.level <$> item = Some YellowLight)
    then ("#f97316", "#fff7ed", "#edae26")
    else ("#ef4444", "#fef2f2", "#b91c1c") in
  {| cdScore := orZero (DimensionResult.score <$> item);
     cdLevel := default RedLight (DimensionResult.level <$> item);
     cdColor := statusColor;
     cdBgColor := statusBg;
     cdTextColor := statusText |}.

(** The [data] of the chart in the mail. *)
Definition chartData (summaryData : Summary) : list Z :=
  [cdScore (getCatData summaryData FaceComplexion);
   cdScore (getCatData summaryData HairStyling);
   cdScore (getCatData summaryData OutfitStrategy);
   cdScore (getCatData summaryData SocialImage)].

(** ** The answers sent to the AI *)

(** [OPTIONS.find(o => o.value === answers[q.id])?.label || '未答']. *)
Definition answerLabel (OPTIONS : list Opt.t) (answers : gmap Z Z)
  (q : Question.t) : string :=
  let found :=
    List.find (fun o => bool_decide (Some (Opt.value o)
                                     = answers !! Question.id q))
              OPTIONS in
  orString (default EmptyString (Opt.label <$> found)) "未答".

(** ** Invariants of the page *)

(** What holds of the state after any run of events. *)
Record pageInv (QUESTIONS : list Question.t) (OPTIONS : list Opt.t)
  (s : AppState.t) : Prop :=
  { inv_index :
      AppState.step s = quiz ->
      0 <= AppState.currentIdx s < Z.of_nat (length QUESTIONS);
    inv_intro :
      AppState.step s = quiz -> AppState.isIntroMode s = true ->
      Z.rem (AppState.currentIdx s) 5 = 0;
    inv_answers :
      forall k v, AppState.answers s !! k = Some v ->
        (exists q, q ∈ QUESTIONS /\ Question.id q = k) /\
        (exists o, o ∈ OPTIONS /\ Opt.value o = v);
    inv_before :
      AppState.step s = quiz ->
      forall (j : nat) q, (Z.of_nat j < AppState.currentIdx s) ->
        QUESTIONS !! j = Some q ->
        is_Some (AppState.answers s !! Question.id q);
    inv_complete :
      AppState.step s = diagnosing \/ AppState.step s = result ->
      forall q, q ∈ QUESTIONS ->
        is_Some (AppState.answers s !! Question.id q);
    inv_report :
      AppState.step s = result -> is_Some (AppState.aiAnalysis s) }.

(** Level as a number, red below yellow below green. *)
Definition levelRank (l : Level) : Z :=
  match l with
  | RedLight => 0
  | YellowLight => 1
  | GreenLight => 2
  end.

(** ** Marks at the ends of a string *)

Definition startsWithStar (s : string) : bool :=
  match s with
  | String c _ => Ascii.eqb c "*"
  | EmptyString => false
  end.

Fixpoint endsWithStar (s : string) : bool :=
  match s with
  | EmptyString => false
  | String c rest =>
      match rest with
      | EmptyString => Ascii.eqb c "*"
      | String _ _ => endsWithStar rest
      end
  end.

(** The line feed, as a string. *)
Definition newline : string := String (ascii_of_nat 10) EmptyString.

(** A piece of text free of [**] and of line feeds, with no [*] at
    either end, and not empty. *)
Definition cleanPiece (piece : string) : Prop :=
  includes piece "**" = false /\ includes piece newline = false /\
  startsWithStar piece = false /\ endsWithStar piece = false /\
  piece <> EmptyString.

(** ** More tables for the examples *)

(** Modelled from the spec: the [OPTIONS] table of [constants.ts], five
    points from 3 down to 0 and the sentinel -1; the labels are those
    the prompt of [runDiagnosis] quotes. *)
Definition OPTIONS5 : list Opt.t :=
  [Opt.mk 3 "非常符合"; Opt.mk 2 "有點符合"; Opt.mk 1 "不太符合";
   Opt.mk 0 "完全沒有"; Opt.mk (-1) "我不確定"].

(** A user who starts the quiz and picks the first option, then the
    second, and so on in turn, for all twenty questions. *)
Definition wholeQuiz : list Event :=
  ClickStart
  :: concat (replicate 4
       [ClickNext; ClickOption 0; ClickOption 1; ClickOption 2;
        ClickOption 3; ClickOption 4]).

(** The same user when the AI call fails and the basic report is asked
    for instead. *)
Definition quizThenSkip : list Event :=
  wholeQuiz
  ++ [AutoDiagnosis 1700000000000 (AiThrew "Error: 503");
      ClickSkip 1700000001000; ShowResult].

(** The state the 20-question page is in after [events], from the
    first render on. *)
Definition stateAfter (events : list Event) : AppState.t :=
  default initialState
    (run QUESTIONS20 CATEGORY_INFO0 OPTIONS5 EmptyString events
       initialState).

(** The page showing the fifth question of the first category. *)
Definition atFifthQuestion : AppState.t :=
  stateAfter [ClickStart; ClickNext; ClickOption 0; ClickOption 1;
              ClickOption 2; ClickOption 3].

(** The page showing the first question. *)
Definition atFirstQuestion : AppState.t :=
  stateAfter [ClickStart; ClickNext].

(** The user answers the first question, goes back twice and starts
    again before the [nextStep] of that answer has run; that
    [nextStep], with the render it captured, then runs on the new
    quiz. *)
Definition afterLateNextStep : option AppState.t :=
  s1 ← handleAnswer QUESTIONS20 3 atFirstQuestion atFirstQuestion;
  s2 ← run QUESTIONS20 CATEGORY_INFO0 OPTIONS5 EmptyString
         [ClickPrev; ClickPrev; ClickStart] s1;
  Some (nextStep QUESTIONS20 atFirstQuestion s2).

(** The clicks that take the quiz from the second question to its
    end. *)
Definition restOfQuiz : list Event :=
  [ClickNext; ClickOption 0; ClickOption 0; ClickOption 0; ClickOption 0]
  ++ concat (replicate 3
       [ClickNext; ClickOption 0; ClickOption 1; ClickOption 2;
        ClickOption 3; ClickOption 4]).

(** The page on the error card after the AI call failed. *)
Definition onErrorCard : AppState.t :=
  stateAfter (wholeQuiz
              ++ [AutoDiagnosis 1700000000000 (AiThrew "Error: 503")]).

(** Unfolds the state updates of a goal. *)
Ltac simpl_state :=
  unfold setStep, setCurrentIdx, setIsIntroMode, setAnswers, setAiAnalysis,
    setIsAiLoading, setCustomApiKey, setShowKeyInput, setAiFetchingRef,
    setLastFetchTimeRef, setLastError;
  cbn [AppState.step AppState.currentIdx AppState.isIntroMode
       AppState.answers AppState.aiAnalysis AppState.isAiLoading
       AppState.customApiKey AppState.showKeyInput AppState.aiFetchingRef
       AppState.lastFetchTimeRef AppState.lastError].

(** * Properties *)

(** ** Arithmetic of the reducers *)

Lemma fold_left_add {A : Type} (f : A -> Z) (l : list A) (a : Z) :
  fold_left (fun acc x => acc + f x) l a = a + sumZ (map f l).
Proof.
  revert a. induction l as [|x l IH]; intros a; simpl.
  - lia.
  - rewrite IH. lia.
Qed.

Lemma sumZ_bounds {A : Type} (f : A -> Z) (lo hi : Z) (l : list A) :
  (forall x, x ∈ l -> lo <= f x <= hi) ->
  lo * Z.of_nat (length l) <= sumZ (map f l) <= hi * Z.of_nat (length l).
Proof.
  induction l as [|x l IH]; intros Hb.
  - simpl. lia.
  - assert (Hx : lo <= f x <= hi) by (apply Hb; left).
    assert (Hl : forall y, y ∈ l -> lo <= f y <= hi)
      by (intros y Hy; apply Hb; right; exact Hy).
    specialize (IH Hl). cbn [length map sumZ foldr] in *.
    fold (sumZ (map f l)). lia.
Qed.

Lemma sumZ_ext {A : Type} (f g : A -> Z) (l : list A) :
  (forall x, x ∈ l -> f x = g x) -> sumZ (map f l) = sumZ (map g l).
Proof.
  induction l as [|x l IH]; intros He; [reflexivity|].
  cbn [map sumZ foldr]. fold (sumZ (map f l)) (sumZ (map g l)).
  rewrite (He x) by left. rewrite IH; [reflexivity|].
  intros y Hy. apply He. right. exact Hy.
Qed.

(** ** The addend of one question *)

Lemma addend_None : addend None = 0.
Proof. reflexivity. Qed.

Lemma addend_sentinel : addend (Some (-1)) = 0.
Proof. reflexivity. Qed.

Lemma addend_Some (v : Z) : v <> -1 -> addend (Some v) = v.
Proof.
  intros Hv. unfold addend, orZero.
  destruct (decide (Some v = Some (-1))) as [E|_]; [congruence|].
  destruct (decide (v = 0)); lia.
Qed.

Lemma addend_in_scale (val : option Z) :
  (forall v, val = Some v -> -1 <= v <= maxOptionValue) ->
  0 <= addend val <= maxOptionValue.
Proof.
  unfold maxOptionValue. intros Hs. destruct val as [v|].
  - specialize (Hs v eq_refl). destruct (decide (v = -1)) as [->|Hne].
    + rewrite addend_sentinel. lia.
    + rewrite addend_Some by exact Hne. lia.
  - rewrite addend_None. lia.
Qed.

(** ** Shape of the summary *)

Section EngineFacts.

Variable QUESTIONS : list Question.t.
Variable CATEGORY_INFO : Category -> CategoryInfo.

Lemma catScore_sum (answers : gmap Z Z) (cat : Category) :
  catScore QUESTIONS answers cat =
  sumZ (map (fun q => addend (answers !! Question.id q))
            (catQuestions QUESTIONS cat)).
Proof. unfold catScore. rewrite fold_left_add. lia. Qed.

Lemma elem_of_catQuestions (q : Question.t) (cat : Category) :
  q ∈ catQuestions QUESTIONS cat <->
  Question.category q = cat /\ q ∈ QUESTIONS.
Proof.
  unfold catQuestions.
  apply (list_elem_of_filter (fun q => Question.category q = cat)).
Qed.

(** The memo is [null] exactly outside the two scoring steps. *)
Lemma localSummary_null (step : Step) (answers : gmap Z Z) :
  localSummary QUESTIONS CATEGORY_INFO step answers = None <->
  step <> result /\ step <> diagnosing.
Proof.
  unfold localSummary.
  destruct (decide (step <> result /\ step <> diagnosing)) as [H|H].
  - split; [intros _; exact H | reflexivity].
  - split; [discriminate | intros H'; contradiction].
Qed.

Lemma localSummary_Some (step : Step) (answers : gmap Z Z) (s : Summary) :
  localSummary QUESTIONS CATEGORY_INFO step answers = Some s ->
  summary s = map (dimension QUESTIONS CATEGORY_INFO answers) categories /\
  totalScore s =
    fold_left (fun acc curr => acc + DimensionResult.score curr)
              (summary s) 0.
Proof.
  unfold localSummary.
  destruct (decide (step <> result /\ step <> diagnosing)); [discriminate|].
  intros [= <-]. split; reflexivity.
Qed.

Lemma localSummary_defined (step : Step) (answers : gmap Z Z) :
  step = result \/ step = diagnosing ->
  exists s, localSummary QUESTIONS CATEGORY_INFO step answers = Some s.
Proof.
  intros Hs.
  destruct (localSummary QUESTIONS CATEGORY_INFO step answers)
    as [s|] eqn:E.
  - exists s. reflexivity.
  - apply localSummary_null in E. destruct E, Hs; contradiction.
Qed.

(** Every entry of the summary is the dimension of its category. *)
Lemma summary_entry (step : Step) (answers : gmap Z Z) (s : Summary)
  (r : DimensionResult.t) :
  localSummary QUESTIONS CATEGORY_INFO step answers = Some s ->
  r ∈ summary s ->
  r = dimension QUESTIONS CATEGORY_INFO answers (DimensionResult.category r).
Proof.
  intros Hs Hr. apply localSummary_Some in Hs as [Hsum _].
  rewrite Hsum in Hr. apply list_elem_of_fmap in Hr as [cat [-> _]].
  reflexivity.
Qed.

End EngineFacts.

(** The same facts for the 48-point copy. *)
Lemma Variant48_localSummary_Some (QUESTIONS : list Variant48.Question.t)
  (CATEGORY_INFO : Variant48.Category -> CategoryInfo)
  (step : Step) (answers : gmap Z Z) (s : Variant48.Summary) :
  Variant48.localSummary QUESTIONS CATEGORY_INFO step answers = Some s ->
  Variant48.summary s =
    map (Variant48.dimension QUESTIONS CATEGORY_INFO answers)
        Variant48.categories /\
  Variant48.totalScore s =
    fold_left (fun acc curr => acc + Variant48.DimensionResult.score curr)
              (Variant48.summary s) 0.
Proof.
  unfold Variant48.localSummary.
  destruct (decide (step <> result /\ step <> diagnosing)); [discriminate|].
  intros [= <-]. split; reflexivity.
Qed.

(** ** Summation *)

(** C1. Whatever the answers (none, some or all questions answered),
    the summary has one entry per category, four in all, and its
    [totalScore] is the sum of their scores; in the 60-point page and
    in its 48-point copy alike. *)
Theorem C1_totalScore_is_sum_of_category_scores :
  (forall (QUESTIONS : list Question.t)
          (CATEGORY_INFO : Category -> CategoryInfo)
          (step : Step) (answers : gmap Z Z) (s : Summary),
      localSummary QUESTIONS CATEGORY_INFO step answers = Some s ->
      exists r1 r2 r3 r4,
        summary s = [r1; r2; r3; r4] /\
        totalScore s =
          DimensionResult.score r1 + DimensionResult.score r2 +
          DimensionResult.score r3 + DimensionResult.score r4 /\
        totalScore s = sumZ (map DimensionResult.score (summary s))) /\
  (forall (QUESTIONS : list Variant48.Question.t)
          (CATEGORY_INFO : Variant48.Category -> CategoryInfo)
          (step : Step) (answers : gmap Z Z) (s : Variant48.Summary),
      Variant48.localSummary QUESTIONS CATEGORY_INFO step answers = Some s ->
      exists r1 r2 r3 r4,
        Variant48.summary s = [r1; r2; r3; r4] /\
        Variant48.totalScore s =
          Variant48.DimensionResult.score r1 +
          Variant48.DimensionResult.score r2 +
          Variant48.DimensionResult.score r3 +
          Variant48.DimensionResult.score r4).
Proof.
  split.
  - intros QUESTIONS CATEGORY_INFO step answers s Hs.
    apply localSummary_Some in Hs as [Hsum Htot].
    rewrite fold_left_add in Htot. rewrite Htot, Hsum.
    unfold categories. cbn [map sumZ foldr].
    do 4 eexists. split; [reflexivity|]. split; lia.
  - intros QUESTIONS CATEGORY_INFO step answers s Hs.
    apply Variant48_localSummary_Some in Hs as [Hsum Htot].
    rewrite fold_left_add in Htot. rewrite Htot, Hsum.
    unfold Variant48.categories. cbn [map sumZ foldr].
    do 4 eexists. split; [reflexivity|]. lia.
Qed.

Lemma C1_witness :
  exists s,
    localSummary QUESTIONS20 CATEGORY_INFO0 result {[ 1 := 3; 7 := 2 ]}
      = Some s /\
    totalScore s = 5 /\
    totalScore s = sumZ (map DimensionResult.score (summary s)).
Proof.
  eexists. split; [vm_compute; reflexivity|].
  split; [reflexivity|].
  destruct (proj1 C1_totalScore_is_sum_of_category_scores
              QUESTIONS20 CATEGORY_INFO0 result {[ 1 := 3; 7 := 2 ]} _
              eq_refl) as (r1 & r2 & r3 & r4 & _ & _ & H).
  exact H.
Defined.

(** With no answer at all every score is 0 and every level is red. *)
Example empty_answers_zero :
  (fun s => (map (fun r => (DimensionResult.score r, DimensionResult.level r))
                 (summary s), totalScore s)) <$>
    localSummary QUESTIONS20 CATEGORY_INFO0 diagnosing ∅
  = Some ([(0, RedLight); (0, RedLight); (0, RedLight); (0, RedLight)], 0).
Proof. vm_compute. reflexivity. Qed.

(** ** Sentinel and missing answers *)

Lemma sumZ_chosenValues (QUESTIONS : list Question.t)
  (answers : gmap Z Z) (cat : Category) :
  sumZ (map (fun q => addend (answers !! Question.id q))
            (catQuestions QUESTIONS cat))
  = sumZ (chosenValues QUESTIONS answers cat).
Proof.
  unfold chosenValues.
  induction (catQuestions QUESTIONS cat) as [|q l IH]; [reflexivity|].
  cbn [map omap list_omap sumZ foldr].
  fold (sumZ (map (fun q => addend (answers !! Question.id q)) l)).
  rewrite IH. clear IH.
  destruct (answers !! Question.id q) as [v|] eqn:E.
  - destruct (decide (v = -1)) as [->|Hne].
    + rewrite addend_sentinel. unfold sumZ. lia.
    + rewrite addend_Some by exact Hne. reflexivity.
  - rewrite addend_None. unfold sumZ. lia.
Qed.

(** C2. A question answered -1 ("unsure") and a question without an
    answer each add exactly 0 to the score of their category, and the
    score of a category is the sum of the values chosen for those of
    its questions that carry an answer other than -1. *)
Theorem C2_sentinel_and_missing_count_zero
  (QUESTIONS : list Question.t) (CATEGORY_INFO : Category -> CategoryInfo)
  (step : Step) (answers : gmap Z Z) (s : Summary)
  (r : DimensionResult.t) :
  localSummary QUESTIONS CATEGORY_INFO step answers = Some s ->
  r ∈ summary s ->
  addend (Some (-1)) = 0 /\
  addend None = 0 /\
  DimensionResult.score r =
    sumZ (chosenValues QUESTIONS answers (DimensionResult.category r)).
Proof.
  intros Hs Hr. split; [apply addend_sentinel|].
  split; [apply addend_None|].
  rewrite (summary_entry _ _ _ _ _ _ Hs Hr) at 1.
  cbn [dimension DimensionResult.score].
  rewrite catScore_sum. apply sumZ_chosenValues.
Qed.

Lemma C2_witness :
  exists s,
    localSummary QUESTIONS20 CATEGORY_INFO0 diagnosing partialAnswers
      = Some s /\
    dimension QUESTIONS20 CATEGORY_INFO0 partialAnswers FaceComplexion
      ∈ summary s /\
    sumZ (chosenValues QUESTIONS20 partialAnswers FaceComplexion) = 3 /\
    DimensionResult.score
      (dimension QUESTIONS20 CATEGORY_INFO0 partialAnswers FaceComplexion)
    = sumZ (chosenValues QUESTIONS20 partialAnswers FaceComplexion).
Proof.
  eexists. split; [reflexivity|].
  assert (Hin : dimension QUESTIONS20 CATEGORY_INFO0 partialAnswers
                  FaceComplexion
                ∈ map (dimension QUESTIONS20 CATEGORY_INFO0 partialAnswers)
                      categories) by left.
  split; [exact Hin|]. split; [reflexivity|].
  exact (proj2 (proj2
    (C2_sentinel_and_missing_count_zero QUESTIONS20 CATEGORY_INFO0
       diagnosing partialAnswers _ _ eq_refl Hin))).
Defined.

(** ** Fallback persona *)

(** C3. The fallback persona is a function of [totalScore] alone, read
    off a table whose first matching row wins: 48 and above gives
    [charmer], else 38 and above gives [statue], else 20 and below
    gives [pioneer], else [neighbor]; 60 gives [charmer] and 0 gives
    [pioneer]. *)
Theorem C3_fallback_decision_table (t : Z) (forceFallback : bool)
  (s : Summary) :
  selectedPersonaId (fallbackAnalysis forceFallback s)
    = fallbackId (totalScore s) /\
  (fallbackId t = "charmer" <-> 48 <= t) /\
  (fallbackId t = "statue" <-> 38 <= t < 48) /\
  (fallbackId t = "pioneer" <-> t <= 20) /\
  (fallbackId t = "neighbor" <-> 20 < t < 38) /\
  fallbackId 60 = "charmer" /\
  fallbackId 0 = "pioneer".
Proof.
  split; [reflexivity|].
  unfold fallbackId.
  destruct (decide (48 <= t)) as [H48|H48];
    [|destruct (decide (38 <= t)) as [H38|H38];
      [|destruct (decide (t <= 20)) as [H20|H20]]].
  all: repeat split; try discriminate; try lia; try reflexivity.
Qed.

(** The two ends of the scale, from the answers on. *)
Example all_max_is_charmer :
  (fallbackId ∘ totalScore) <$>
    localSummary QUESTIONS20 CATEGORY_INFO0 result (allAnswered 3)
  = Some "charmer".
Proof. vm_compute. reflexivity. Qed.

Example all_unsure_is_pioneer :
  (fallbackId ∘ totalScore) <$>
    localSummary QUESTIONS20 CATEGORY_INFO0 result (allAnswered (-1))
  = Some "pioneer".
Proof. vm_compute. reflexivity. Qed.

Lemma fallbackId_cases (t : Z) :
  fallbackId t = "charmer" \/ fallbackId t = "statue" \/
  fallbackId t = "pioneer" \/ fallbackId t = "neighbor".
Proof.
  unfold fallbackId.
  destruct (decide (48 <= t)); [tauto|].
  destruct (decide (38 <= t)); [tauto|].
  destruct (decide (t <= 20)); tauto.
Qed.

Lemma fallbackId_known (t : Z) : fallbackId t ∈ personaIds.
Proof.
  apply list_elem_of_In. unfold personaIds.
  destruct (fallbackId_cases t) as [E|[E|[E|E]]]; rewrite E; simpl; tauto.
Qed.

(** C6. The table has no gap: every integer [totalScore], and so every
    one from 0 to 60, gets one of the six persona ids. The computation
    is an expression over [totalScore]; it reads and writes nothing
    else. *)
Theorem C6_fallback_total (t : Z) :
  fallbackId t ∈ personaIds /\
  (fallbackId t = "charmer" \/ fallbackId t = "statue" \/
   fallbackId t = "pioneer" \/ fallbackId t = "neighbor").
Proof.
  split; [apply fallbackId_known|].
  destruct (fallbackId_cases t) as [E|[E|[E|E]]]; rewrite E; tauto.
Qed.

Lemma Variant48_fallback_total (t : Z) :
  Variant48.fallbackId t ∈ personaIds.
Proof.
  unfold Variant48.fallbackId, personaIds.
  destruct (decide (36 < t)); apply list_elem_of_In; simpl; tauto.
Qed.

(** ** Persona lookup *)

Section PersonaFacts.

Variable PERSONAS : list Persona.t.

Lemma findPersona_Some (wanted : string) (p : Persona.t) :
  findPersona PERSONAS wanted = Some p ->
  p ∈ PERSONAS /\ Persona.id p = wanted.
Proof.
  unfold findPersona. intros Hf. apply find_some in Hf as [Hin Hid].
  split.
  - apply list_elem_of_In. exact Hin.
  - apply bool_decide_eq_true in Hid. exact Hid.
Qed.

Lemma findPersona_None (wanted : string) :
  findPersona PERSONAS wanted = None ->
  forall q, q ∈ PERSONAS -> Persona.id q <> wanted.
Proof.
  unfold findPersona. intros Hf q Hq Hid.
  apply list_elem_of_In in Hq.
  pose proof (find_none _ _ Hf q Hq) as Hb. cbn beta in Hb.
  apply bool_decide_eq_false in Hb. contradiction.
Qed.

(** An index below the length of the table reads one of its rows. *)
Lemma lookup_member (i : nat) :
  (i < length PERSONAS)%nat ->
  exists p, PERSONAS !! i = Some p /\ p ∈ PERSONAS.
Proof.
  intros Hi. destruct (lookup_lt_is_Some_2 PERSONAS i Hi) as [p Hp].
  exists p. split; [exact Hp|].
  apply list_elem_of_lookup. exists i. exact Hp.
Qed.

(** Whatever id is looked for, with row [d] as the default. *)
Lemma orElse_find_member (wanted : string) (d : nat) :
  (d < length PERSONAS)%nat ->
  exists p,
    orElse (findPersona PERSONAS wanted) (PERSONAS !! d) = Some p /\
    p ∈ PERSONAS /\
    ((exists q, q ∈ PERSONAS /\ Persona.id q = wanted) ->
     Persona.id p = wanted) /\
    ((forall q, q ∈ PERSONAS -> Persona.id q <> wanted) ->
     PERSONAS !! d = Some p).
Proof.
  intros Hd. destruct (findPersona PERSONAS wanted) as [p|] eqn:Hf.
  - apply findPersona_Some in Hf as [Hin Hid].
    exists p. cbn. split; [reflexivity|]. split; [exact Hin|]. split.
    + intros _. exact Hid.
    + intros Hno. exfalso. exact (Hno p Hin Hid).
  - destruct (lookup_member d Hd) as [p [Hp Hin]].
    exists p. cbn. split; [exact Hp|]. split; [exact Hin|]. split.
    + intros [q [Hq Hid]]. exfalso.
      exact (findPersona_None wanted Hf q Hq Hid).
    + intros _. exact Hp.
Qed.

(** The lookup of the mail, whatever id is looked for first: that
    row, else the first [neighbor] row, else the fourth row. *)
Lemma webhook_lookup (wanted : string) :
  (3 < length PERSONAS)%nat ->
  exists p,
    orElse (findPersona PERSONAS wanted)
      (orElse (findPersona PERSONAS "neighbor") (PERSONAS !! 3%nat))
      = Some p /\
    p ∈ PERSONAS /\
    ((exists q, q ∈ PERSONAS /\ Persona.id q = wanted) ->
     Persona.id p = wanted) /\
    ((forall q, q ∈ PERSONAS -> Persona.id q <> wanted) ->
     ((exists q, q ∈ PERSONAS /\ Persona.id q = "neighbor") ->
      Persona.id p = "neighbor") /\
     ((forall q, q ∈ PERSONAS -> Persona.id q <> "neighbor") ->
      PERSONAS !! 3%nat = Some p)).
Proof.
  intros H3. destruct (findPersona PERSONAS wanted) as [p|] eqn:Hf.
  - apply findPersona_Some in Hf as [Hin Hid].
    exists p. cbn [orElse]. split; [reflexivity|]. split; [exact Hin|].
    split.
    + intros _. exact Hid.
    + intros Hno. exfalso. exact (Hno p Hin Hid).
  - destruct (orElse_find_member "neighbor" 3 H3)
      as [p [Hp [Hin [Hknown Hunknown]]]].
    exists p. cbn [orElse]. split; [exact Hp|]. split; [exact Hin|].
    split.
    + intros [q [Hq Hid]]. exfalso.
      exact (findPersona_None wanted Hf q Hq Hid).
    + intros _. split; [exact Hknown | exact Hunknown].
Qed.

Lemma webhookPersona_member (report : AiReport) :
  (3 < length PERSONAS)%nat ->
  exists p, webhookPersona PERSONAS report = Some p /\ p ∈ PERSONAS.
Proof.
  intros H3. unfold webhookPersona, webhookPersonaWith.
  destruct (webhook_lookup (webhookNormalizedIdWith toLowerCase trim report)
              H3) as [p [Hp [Hin _]]].
  exists p. split; [exact Hp | exact Hin].
Qed.

End PersonaFacts.

(** What the two string operations leave behind. *)
Lemma lowerAscii_not_upper (c : ascii) : isUpper (lowerAscii c) = false.
Proof.
  destruct c as [b0 b1 b2 b3 b4 b5 b6 b7].
  destruct b0, b1, b2, b3, b4, b5, b6, b7; reflexivity.
Qed.

Lemma toLowerCase_no_upper (s : string) :
  Forall (fun c => isUpper c = false)
         (list_ascii_of_string (toLowerCase s)).
Proof.
  induction s as [|c s IH]; cbn [toLowerCase list_ascii_of_string].
  - constructor.
  - constructor; [apply lowerAscii_not_upper | exact IH].
Qed.

Lemma trimStart_clean_upto (n : nat) (s : string) :
  (String.length s <= n)%nat -> startsClean (trimStart s).
Proof.
  revert s. induction n as [|n IH]; intros s Hlen.
  - destruct s; [exact I | cbn in Hlen; lia].
  - destruct s as [|c1 r1]; [exact I|]. cbn [String.length] in Hlen.
    cbn [trimStart].
    destruct (isWhiteSpace c1) eqn:E1; [apply IH; lia|].
    destruct r1 as [|c2 r2]; [cbn; auto|]. cbn [String.length] in Hlen.
    destruct (isWhiteSpace2 c1 c2) eqn:E2; [apply IH; lia|].
    destruct r2 as [|c3 r3]; [cbn; auto|]. cbn [String.length] in Hlen.
    destruct (isWhiteSpace3 c1 c2 c3) eqn:E3; [apply IH; lia|].
    cbn [startsClean]. auto.
Qed.

Lemma trimStart_clean (s : string) : startsClean (trimStart s).
Proof. apply (trimStart_clean_upto (String.length s)). lia. Qed.

(** On a string that starts clean there is nothing to trim. *)
Lemma trimStart_of_clean (s : string) :
  startsClean s -> trimStart s = s.
Proof.
  destruct s as [|c1 [|c2 [|c3 r3]]]; cbn [startsClean trimStart].
  - reflexivity.
  - intros [-> _]. reflexivity.
  - intros [-> [-> _]]. reflexivity.
  - intros [-> [-> ->]]. reflexivity.
Qed.

Lemma trimStart_idempotent (s : string) :
  trimStart (trimStart s) = trimStart s.
Proof. apply trimStart_of_clean, trimStart_clean. Qed.

(** The white space [trim] removes beyond ASCII, on an id between an
    ideographic space and a no-break space. *)
Example trim_unicode_white_space :
  trim (toLowerCase paddedSage) = "sage" /\
  trim (ideographicSpace ++ noBreakSpace) = EmptyString /\
  trim "a b" = "a b".
Proof. repeat split. Qed.

(** C4. The id the AI path returned is lower-cased, then trimmed, by
    the builtins of the runtime, whatever they do to the string. If a
    row of the table has the resulting id, a row with that id is the
    active persona; otherwise the sixth row is. With six rows in the
    table every string gives a persona, and it is a row of the table:
    reading the result never fails. The lookup of the report sent by
    mail takes [neighbor] for an empty id and the normalized id
    otherwise; it gives a row with that id if there is one, else a
    [neighbor] row if there is one, else the fourth row. *)
Theorem C4_normalized_persona_is_known
  (jsToLowerCase jsTrim : string -> string)
  (PERSONAS : list Persona.t) (report : AiReport) :
  length PERSONAS = 6%nat ->
  (exists p,
     activePersonaWith PERSONAS jsToLowerCase jsTrim (Some report) = Some p /\
     p ∈ PERSONAS /\
     ((exists q, q ∈ PERSONAS /\
         Persona.id q = jsTrim (jsToLowerCase (selectedPersonaId report))) ->
      Persona.id p = jsTrim (jsToLowerCase (selectedPersonaId report))) /\
     ((forall q, q ∈ PERSONAS ->
         Persona.id q <> jsTrim (jsToLowerCase (selectedPersonaId report))) ->
      PERSONAS !! 5%nat = Some p)) /\
  (exists p,
     webhookPersonaWith PERSONAS jsToLowerCase jsTrim report = Some p /\
     p ∈ PERSONAS /\
     (selectedPersonaId report <> EmptyString ->
      (exists q, q ∈ PERSONAS /\
         Persona.id q = jsTrim (jsToLowerCase (selectedPersonaId report))) ->
      Persona.id p = jsTrim (jsToLowerCase (selectedPersonaId report))) /\
     (selectedPersonaId report = EmptyString \/
      (forall q, q ∈ PERSONAS ->
         Persona.id q <> jsTrim (jsToLowerCase (selectedPersonaId report))) ->
      ((exists q, q ∈ PERSONAS /\ Persona.id q = "neighbor") ->
       Persona.id p = "neighbor") /\
      ((forall q, q ∈ PERSONAS -> Persona.id q <> "neighbor") ->
       PERSONAS !! 3%nat = Some p))).
Proof.
  intros Hlen. split.
  - unfold activePersonaWith. apply orElse_find_member. lia.
  - unfold webhookPersonaWith, webhookNormalizedIdWith.
    destruct (decide (selectedPersonaId report = EmptyString)) as [He|Hne].
    + destruct (webhook_lookup PERSONAS "neighbor")
        as [p [Hp [Hin [Hknown Hunknown]]]]; [lia|].
      exists p. split; [exact Hp|]. split; [exact Hin|]. split.
      * intros Hne. contradiction.
      * intros _. split; [exact Hknown|].
        intros Hno. exact (proj2 (Hunknown Hno) Hno).
    + destruct (webhook_lookup PERSONAS
                  (jsTrim (jsToLowerCase (selectedPersonaId report))))
        as [p [Hp [Hin [Hknown Hunknown]]]]; [lia|].
      exists p. split; [exact Hp|]. split; [exact Hin|]. split.
      * intros _ Hex. exact (Hknown Hex).
      * intros [He|Hno]; [contradiction|]. exact (Hunknown Hno).
Qed.

(** The theorem at [toLowerCase] and [trim] as given above, on a padded
    id, an id in mixed case, an id padded with white space beyond
    ASCII, an unknown token and the empty id, and on a table with no
    [neighbor] row. *)
Lemma C4_witness :
  length PERSONAS6 = 6%nat /\
  length PERSONAS_without_neighbor = 6%nat /\
  (exists p,
     activePersona PERSONAS6 (Some (reportWith paddedCharmer)) = Some p /\
     webhookPersona PERSONAS6 (reportWith paddedCharmer) = Some p /\
     Persona.id p = "charmer") /\
  (exists p,
     activePersona PERSONAS6 (Some (reportWith "StAtUe")) = Some p /\
     webhookPersona PERSONAS6 (reportWith "StAtUe") = Some p /\
     Persona.id p = "statue") /\
  (exists p,
     activePersona PERSONAS6 (Some (reportWith paddedSage)) = Some p /\
     webhookPersona PERSONAS6 (reportWith paddedSage) = Some p /\
     Persona.id p = "sage") /\
  (exists p p',
     activePersona PERSONAS6 (Some (reportWith "wizard")) = Some p /\
     PERSONAS6 !! 5%nat = Some p /\
     webhookPersona PERSONAS6 (reportWith "wizard") = Some p' /\
     Persona.id p' = "neighbor") /\
  (exists p p',
     activePersona PERSONAS6 (Some (reportWith EmptyString)) = Some p /\
     PERSONAS6 !! 5%nat = Some p /\
     webhookPersona PERSONAS6 (reportWith EmptyString) = Some p' /\
     Persona.id p' = "neighbor") /\
  (exists p',
     webhookPersona PERSONAS_without_neighbor (reportWith "wizard")
       = Some p' /\
     PERSONAS_without_neighbor !! 3%nat = Some p').
Proof.
  assert (Hrow : forall i,
            In i personaIds ->
            exists q, q ∈ PERSONAS6 /\ Persona.id q = i).
  { intros i Hi.
    exists (Persona.mk i EmptyString EmptyString [] EmptyString).
    split; [|reflexivity].
    apply list_elem_of_In. unfold PERSONAS6.
    exact (in_map (fun i => Persona.mk i EmptyString EmptyString []
                              EmptyString) personaIds i Hi). }
  assert (Hnone : forall (ids : list string) (i : string),
            ~ In i ids ->
            forall q,
              q ∈ map (fun i => Persona.mk i EmptyString EmptyString []
                                  EmptyString) ids ->
              Persona.id q <> i).
  { intros ids i Hi q Hq Hid. apply Hi.
    apply list_elem_of_In, in_map_iff in Hq as [j [<- Hj]].
    cbn in Hid. subst j. exact Hj. }
  assert (Hwizard : ~ In "wizard" personaIds).
  { cbn. intros H. repeat (destruct H as [H|H]; [discriminate|]). exact H. }
  assert (Hempty : ~ In EmptyString personaIds).
  { cbn. intros H. repeat (destruct H as [H|H]; [discriminate|]). exact H. }
  split; [reflexivity|]. split; [reflexivity|].
  split; [|split; [|split; [|split; [|split]]]].
  - destruct (C4_normalized_persona_is_known toLowerCase trim PERSONAS6
                (reportWith paddedCharmer) eq_refl)
      as [[p [Hp [_ [Hk _]]]] [p' [Hp' [_ [Hk' _]]]]].
    assert (Hex : exists q, q ∈ PERSONAS6 /\ Persona.id q = "charmer")
      by (apply Hrow; cbn; tauto).
    exists p. split; [exact Hp|]. split.
    + unfold webhookPersona. rewrite Hp'. f_equal.
      assert (E : Some p = Some p') by (rewrite <- Hp, <- Hp'; reflexivity).
      injection E as ->. reflexivity.
    + exact (Hk Hex).
  - destruct (C4_normalized_persona_is_known toLowerCase trim PERSONAS6
                (reportWith "StAtUe") eq_refl)
      as [[p [Hp [_ [Hk _]]]] [p' [Hp' _]]].
    assert (Hex : exists q, q ∈ PERSONAS6 /\ Persona.id q = "statue")
      by (apply Hrow; cbn; tauto).
    exists p. split; [exact Hp|]. split.
    + unfold webhookPersona. rewrite Hp'. f_equal.
      assert (E : Some p = Some p') by (rewrite <- Hp, <- Hp'; reflexivity).
      injection E as ->. reflexivity.
    + exact (Hk Hex).
  - destruct (C4_normalized_persona_is_known toLowerCase trim PERSONAS6
                (reportWith paddedSage) eq_refl)
      as [[p [Hp [_ [Hk _]]]] [p' [Hp' _]]].
    assert (Hex : exists q, q ∈ PERSONAS6 /\ Persona.id q = "sage")
      by (apply Hrow; cbn; tauto).
    exists p. split; [exact Hp|]. split.
    + unfold webhookPersona. rewrite Hp'. f_equal.
      assert (E : Some p = Some p') by (rewrite <- Hp, <- Hp'; reflexivity).
      injection E as ->. reflexivity.
    + exact (Hk Hex).
  - destruct (C4_normalized_persona_is_known toLowerCase trim PERSONAS6
                (reportWith "wizard") eq_refl)
      as [[p [Hp [_ [_ Hu]]]] [p' [Hp' [_ [_ Hu']]]]].
    exists p, p'. split; [exact Hp|]. split.
    + apply Hu. exact (Hnone personaIds "wizard" Hwizard).
    + split; [exact Hp'|].
      apply (proj1 (Hu' (or_intror (Hnone personaIds "wizard" Hwizard)))).
      apply Hrow. cbn. tauto.
  - destruct (C4_normalized_persona_is_known toLowerCase trim PERSONAS6
                (reportWith EmptyString) eq_refl)
      as [[p [Hp [_ [_ Hu]]]] [p' [Hp' [_ [_ Hu']]]]].
    exists p, p'. split; [exact Hp|]. split.
    + apply Hu. exact (Hnone personaIds EmptyString Hempty).
    + split; [exact Hp'|].
      apply (proj1 (Hu' (or_introl eq_refl))).
      apply Hrow. cbn. tauto.
  - destruct (C4_normalized_persona_is_known toLowerCase trim
                PERSONAS_without_neighbor (reportWith "wizard") eq_refl)
      as [_ [p' [Hp' [_ [_ Hu']]]]].
    exists p'. split; [exact Hp'|].
    assert (Hw : ~ In "wizard"
                   ["charmer"; "statue"; "hustler"; "guest"; "sage";
                    "pioneer"]).
    { cbn. intros H. repeat (destruct H as [H|H]; [discriminate|]). exact H. }
    assert (Hn : ~ In "neighbor"
                   ["charmer"; "statue"; "hustler"; "guest"; "sage";
                    "pioneer"]).
    { cbn. intros H. repeat (destruct H as [H|H]; [discriminate|]). exact H. }
    apply (proj2 (Hu' (or_intror (Hnone _ "wizard" Hw)))).
    exact (Hnone _ "neighbor" Hn).
Defined.

(** The inputs of the normalization scenario: an empty id, mixed case,
    an unknown token, a padded id. *)
Example activePersona_examples :
  Persona.id <$> activePersona PERSONAS6 (Some (reportWith EmptyString))
    = Some "pioneer" /\
  Persona.id <$> activePersona PERSONAS6 (Some (reportWith "StAtUe"))
    = Some "statue" /\
  Persona.id <$> activePersona PERSONAS6 (Some (reportWith "wizard"))
    = Some "pioneer" /\
  Persona.id <$> activePersona PERSONAS6 (Some (reportWith paddedCharmer))
    = Some "charmer" /\
  Persona.id <$> activePersona PERSONAS6 None = Some "pioneer".
Proof. repeat split. Qed.

(** The same inputs through the lookup of [sendResultsToWebhook]: an
    empty or unknown id falls on the [neighbor] row there. *)
Example webhookPersona_examples :
  Persona.id <$> webhookPersona PERSONAS6 (reportWith EmptyString)
    = Some "neighbor" /\
  Persona.id <$> webhookPersona PERSONAS6 (reportWith "wizard")
    = Some "neighbor" /\
  Persona.id <$> webhookPersona PERSONAS6 (reportWith paddedCharmer)
    = Some "charmer".
Proof. repeat split. Qed.

(** The fallback ids are already in normal form, so the persona shown
    after a forced fallback is the one the table chose. *)
Lemma fallbackId_normal (t : Z) :
  trim (toLowerCase (fallbackId t)) = fallbackId t.
Proof.
  unfold fallbackId.
  destruct (decide (48 <= t)); [reflexivity|].
  destruct (decide (38 <= t)); [reflexivity|].
  destruct (decide (t <= 20)); reflexivity.
Qed.

Lemma forced_fallback_persona (PERSONAS : list Persona.t)
  (forceFallback : bool) (s : Summary) :
  (forall i, i ∈ personaIds -> exists q, q ∈ PERSONAS /\ Persona.id q = i) ->
  exists p,
    activePersona PERSONAS (Some (fallbackAnalysis forceFallback s)) = Some p /\
    p ∈ PERSONAS /\
    Persona.id p = fallbackId (totalScore s).
Proof.
  intros Hall.
  destruct (Hall (fallbackId (totalScore s)) (fallbackId_known _))
    as [q [Hq Hid]].
  unfold activePersona, activePersonaWith.
  cbn [selectedPersonaId fallbackAnalysis].
  rewrite fallbackId_normal.
  destruct (findPersona PERSONAS (fallbackId (totalScore s))) as [p|] eqn:Hf.
  - apply findPersona_Some in Hf as [Hin Hp]. exists p. cbn.
    split; [reflexivity|]. split; [exact Hin | exact Hp].
  - exfalso. exact (findPersona_None _ _ Hf q Hq Hid).
Qed.

(** ** Range of a category score *)

Lemma catScore_in_scale (QUESTIONS : list Question.t)
  (answers : gmap Z Z) (cat : Category) :
  (forall q v, q ∈ QUESTIONS -> answers !! Question.id q = Some v ->
               -1 <= v <= maxOptionValue) ->
  0 <= catScore QUESTIONS answers cat
    <= maxOptionValue * Z.of_nat (length (catQuestions QUESTIONS cat)).
Proof.
  intros Hscale. rewrite catScore_sum.
  pose proof (sumZ_bounds
                (fun q => addend (answers !! Question.id q))
                0 maxOptionValue (catQuestions QUESTIONS cat)) as Hb.
  rewrite Z.mul_0_l in Hb. apply Hb.
  intros q Hq. apply elem_of_catQuestions in Hq as [_ Hq].
  apply addend_in_scale. intros v Hv. exact (Hscale q v Hq Hv).
Qed.

(** C5, as the code has it. In the two scoring steps the summary is
    computed for every answers map. A missing answer and -1 count 0;
    any other value, inside the option scale or not, is added as it
    stands. When the values chosen for the questions lie in the scale
    -1..3, every category score lies between 0 and three times the
    number of questions of the category. *)
Theorem C5_summary_total_scores_in_range
  (QUESTIONS : list Question.t) (CATEGORY_INFO : Category -> CategoryInfo)
  (step : Step) (answers : gmap Z Z) :
  step = result \/ step = diagnosing ->
  exists s,
    localSummary QUESTIONS CATEGORY_INFO step answers = Some s /\
    (forall v, v <> -1 -> addend (Some v) = v) /\
    ((forall q v, q ∈ QUESTIONS -> answers !! Question.id q = Some v ->
                  -1 <= v <= maxOptionValue) ->
     forall r, r ∈ summary s ->
       0 <= DimensionResult.score r
         <= maxOptionValue *
            Z.of_nat (length (catQuestions QUESTIONS
                                (DimensionResult.category r)))).
Proof.
  intros Hstep.
  destruct (localSummary_defined QUESTIONS CATEGORY_INFO step answers Hstep)
    as [s Hs].
  exists s. split; [exact Hs|]. split; [exact addend_Some|].
  intros Hscale r Hr.
  rewrite (summary_entry _ _ _ _ _ _ Hs Hr) at 1 2.
  cbn [dimension DimensionResult.score].
  apply catScore_in_scale. exact Hscale.
Qed.

Lemma C5_witness :
  exists s,
    localSummary QUESTIONS20 CATEGORY_INFO0 result (allAnswered 2) = Some s /\
    forall r, r ∈ summary s ->
      0 <= DimensionResult.score r
        <= maxOptionValue *
           Z.of_nat (length (catQuestions QUESTIONS20
                               (DimensionResult.category r))).
Proof.
  destruct (C5_summary_total_scores_in_range QUESTIONS20 CATEGORY_INFO0
              result (allAnswered 2) (or_introl eq_refl))
    as [s [Hs [_ Hrange]]].
  exists s. split; [exact Hs|]. apply Hrange.
  intros q v Hq Hv. apply list_elem_of_In in Hq.
  repeat (destruct Hq as [<-|Hq];
          [vm_compute in Hv; injection Hv as <-;
           unfold maxOptionValue; lia|]).
  destruct Hq.
Defined.

(** C5, as it was stated, fails: a value outside the option scale is
    not brought back to 0. One answer of -2 gives its category a
    negative score, and one answer of 7 among answers of 3 takes its
    category above full marks. *)
Lemma C5_out_of_scale_not_clamped :
  (exists s r,
     localSummary QUESTIONS20 CATEGORY_INFO0 result {[ 1 := -2 ]} = Some s /\
     r ∈ summary s /\
     DimensionResult.score r = -2 /\
     DimensionResult.score r < 0) /\
  (exists s r,
     localSummary QUESTIONS20 CATEGORY_INFO0 result
       (<[ 1 := 7 ]> (allAnswered 3)) = Some s /\
     r ∈ summary s /\
     DimensionResult.score r = 19 /\
     maxOptionValue *
       Z.of_nat (length (catQuestions QUESTIONS20
                           (DimensionResult.category r)))
     < DimensionResult.score r).
Proof.
  split.
  - eexists. eexists. split; [vm_compute; reflexivity|].
    split; [left|]. split; [reflexivity|]. cbn. lia.
  - eexists. eexists. split; [vm_compute; reflexivity|].
    split; [left|]. split; [reflexivity|]. vm_compute. reflexivity.
Qed.

(** ** Full marks *)

Lemma sumZ_const {A : Type} (c : Z) (l : list A) :
  sumZ (map (fun _ => c) l) = Z.of_nat (length l) * c.
Proof.
  pose proof (sumZ_bounds (fun _ : A => c) c c l) as Hb.
  assert (c * Z.of_nat (length l) <= sumZ (map (fun _ => c) l)
          <= c * Z.of_nat (length l)) by (apply Hb; intros; lia).
  lia.
Qed.

Lemma catScore_all_max (QUESTIONS : list Question.t)
  (answers : gmap Z Z) (cat : Category) :
  (forall q, q ∈ QUESTIONS -> Question.category q = cat ->
             answers !! Question.id q = Some maxOptionValue) ->
  catScore QUESTIONS answers cat =
  Z.of_nat (length (catQuestions QUESTIONS cat)) * maxOptionValue.
Proof.
  intros Hmax. rewrite catScore_sum.
  rewrite (sumZ_ext _ (fun _ => maxOptionValue)).
  - apply sumZ_const.
  - intros q Hq. apply elem_of_catQuestions in Hq as [Hcat Hq].
    rewrite (Hmax q Hq Hcat). reflexivity.
Qed.

(** Full marks are green as soon as the category has four questions. *)
Lemma levelOf_full_marks (n : nat) :
  (4 <= n)%nat -> levelOf (Z.of_nat n * maxOptionValue) = GreenLight.
Proof.
  intros Hn. unfold levelOf, levelColor, maxOptionValue.
  destruct (decide (12 <= Z.of_nat n * 3)) as [_|Hlt]; [reflexivity|lia].
Qed.

(** C7. When every question of a category is answered 3, in a bank
    with five questions in that category, the score of the category is
    5 x 3 and its level is green. *)
Theorem C7_max_ceiling
  (QUESTIONS : list Question.t) (CATEGORY_INFO : Category -> CategoryInfo)
  (step : Step) (answers : gmap Z Z) (s : Summary)
  (r : DimensionResult.t) :
  localSummary QUESTIONS CATEGORY_INFO step answers = Some s ->
  r ∈ summary s ->
  length (catQuestions QUESTIONS (DimensionResult.category r))
    = questionsPerCategory ->
  (forall q, q ∈ QUESTIONS ->
             Question.category q = DimensionResult.category r ->
             answers !! Question.id q = Some maxOptionValue) ->
  DimensionResult.score r = Z.of_nat questionsPerCategory * maxOptionValue /\
  DimensionResult.level r = GreenLight.
Proof.
  intros Hs Hr Hlen Hmax.
  pose proof (catScore_all_max QUESTIONS answers _ Hmax) as Hscore.
  rewrite Hlen in Hscore.
  rewrite (summary_entry _ _ _ _ _ _ Hs Hr).
  cbn [dimension DimensionResult.score DimensionResult.level
       DimensionResult.category].
  rewrite Hscore. split; [reflexivity|].
  apply levelOf_full_marks. unfold questionsPerCategory. lia.
Qed.

Lemma C7_witness :
  exists s r,
    localSummary QUESTIONS20 CATEGORY_INFO0 result
      (<[ 6 := 1 ]> (allAnswered 3)) = Some s /\
    r ∈ summary s /\
    DimensionResult.category r = FaceComplexion /\
    DimensionResult.score r = 15 /\
    DimensionResult.level r = GreenLight.
Proof.
  eexists.
  exists (dimension QUESTIONS20 CATEGORY_INFO0
            (<[ 6 := 1 ]> (allAnswered 3)) FaceComplexion).
  split; [reflexivity|].
  assert (Hin : dimension QUESTIONS20 CATEGORY_INFO0
                  (<[ 6 := 1 ]> (allAnswered 3)) FaceComplexion
                ∈ map (dimension QUESTIONS20 CATEGORY_INFO0
                         (<[ 6 := 1 ]> (allAnswered 3)))
                      categories) by left.
  split; [exact Hin|]. split; [reflexivity|].
  apply (C7_max_ceiling QUESTIONS20 CATEGORY_INFO0 result
           (<[ 6 := 1 ]> (allAnswered 3)) _ _ eq_refl Hin eq_refl).
  intros q Hq Hcat. apply list_elem_of_In in Hq.
  repeat (destruct Hq as [<-|Hq];
          [first [reflexivity | discriminate Hcat]|]).
  destruct Hq.
Defined.

(** The same ceiling in the 48-point copy: four questions of 3 make 12,
    which is green there. *)
Lemma Variant48_full_marks_green :
  Variant48.levelOf (4 * maxOptionValue) = GreenLight.
Proof. reflexivity. Qed.

(** ** One category at a time *)

Lemma catScore_agree (QUESTIONS : list Question.t)
  (answers1 answers2 : gmap Z Z) (cat : Category) :
  (forall q, q ∈ QUESTIONS -> Question.category q = cat ->
             answers1 !! Question.id q = answers2 !! Question.id q) ->
  catScore QUESTIONS answers1 cat = catScore QUESTIONS answers2 cat.
Proof.
  intros Hagree. rewrite !catScore_sum. apply sumZ_ext.
  intros q Hq. apply elem_of_catQuestions in Hq as [Hcat Hq].
  rewrite (Hagree q Hq Hcat). reflexivity.
Qed.

(** C8. Two answer maps that give the same values to the questions of
    a category, and any values to the others, give that category the
    same score and the same level: the whole entry of the category is
    the same in both summaries. *)
Theorem C8_category_independence
  (QUESTIONS : list Question.t) (CATEGORY_INFO : Category -> CategoryInfo)
  (step : Step) (answers1 answers2 : gmap Z Z) (cat : Category)
  (s1 s2 : Summary) (r1 r2 : DimensionResult.t) :
  (forall q, q ∈ QUESTIONS -> Question.category q = cat ->
             answers1 !! Question.id q = answers2 !! Question.id q) ->
  localSummary QUESTIONS CATEGORY_INFO step answers1 = Some s1 ->
  localSummary QUESTIONS CATEGORY_INFO step answers2 = Some s2 ->
  r1 ∈ summary s1 -> DimensionResult.category r1 = cat ->
  r2 ∈ summary s2 -> DimensionResult.category r2 = cat ->
  DimensionResult.score r1 = DimensionResult.score r2 /\
  DimensionResult.level r1 = DimensionResult.level r2 /\
  DimensionResult.level r1 = levelOf (DimensionResult.score r1) /\
  r1 = r2.
Proof.
  intros Hagree Hs1 Hs2 Hr1 Hc1 Hr2 Hc2.
  assert (E : r1 = r2).
  { rewrite (summary_entry _ _ _ _ _ _ Hs1 Hr1),
            (summary_entry _ _ _ _ _ _ Hs2 Hr2), Hc1, Hc2.
    unfold dimension.
    rewrite (catScore_agree QUESTIONS answers1 answers2 cat Hagree).
    reflexivity. }
  split; [rewrite E; reflexivity|]. split; [rewrite E; reflexivity|].
  split; [|exact E].
  rewrite (summary_entry _ _ _ _ _ _ Hs1 Hr1). reflexivity.
Qed.

Lemma C8_witness :
  exists s1 s2 r1 r2,
    localSummary QUESTIONS20 CATEGORY_INFO0 result partialAnswers = Some s1 /\
    localSummary QUESTIONS20 CATEGORY_INFO0 result otherAnswers = Some s2 /\
    totalScore s1 <> totalScore s2 /\
    r1 ∈ summary s1 /\ DimensionResult.category r1 = FaceComplexion /\
    r2 ∈ summary s2 /\ DimensionResult.category r2 = FaceComplexion /\
    DimensionResult.score r1 = DimensionResult.score r2 /\
    DimensionResult.level r1 = DimensionResult.level r2.
Proof.
  eexists. eexists.
  exists (dimension QUESTIONS20 CATEGORY_INFO0 partialAnswers FaceComplexion).
  exists (dimension QUESTIONS20 CATEGORY_INFO0 otherAnswers FaceComplexion).
  split; [reflexivity|]. split; [reflexivity|].
  split; [vm_compute; discriminate|].
  assert (Hin1 : dimension QUESTIONS20 CATEGORY_INFO0 partialAnswers
                   FaceComplexion
                 ∈ map (dimension QUESTIONS20 CATEGORY_INFO0 partialAnswers)
                       categories) by left.
  assert (Hin2 : dimension QUESTIONS20 CATEGORY_INFO0 otherAnswers
                   FaceComplexion
                 ∈ map (dimension QUESTIONS20 CATEGORY_INFO0 otherAnswers)
                       categories) by left.
  split; [exact Hin1|]. split; [reflexivity|].
  split; [exact Hin2|]. split; [reflexivity|].
  assert (Hagree : forall q, q ∈ QUESTIONS20 ->
            Question.category q = FaceComplexion ->
            partialAnswers !! Question.id q = otherAnswers !! Question.id q).
  { intros q Hq Hcat. apply list_elem_of_In in Hq.
    repeat (destruct Hq as [<-|Hq];
            [first [discriminate Hcat | vm_compute; reflexivity]|]).
    destruct Hq. }
  destruct (C8_category_independence QUESTIONS20 CATEGORY_INFO0 result
              partialAnswers otherAnswers FaceComplexion _ _ _ _
              Hagree eq_refl eq_refl Hin1 eq_refl Hin2 eq_refl)
    as [Hscore [Hlevel _]].
  split; [exact Hscore | exact Hlevel].
Defined.

(** The mixed scenario: 8, 8, 8 and 14 of 15. The mean, 9.5, would be
    yellow; the last category is green on its own score. *)
Example mixed_levels :
  (fun s => map (fun r => (DimensionResult.score r, DimensionResult.level r))
                (summary s)) <$>
    localSummary QUESTIONS20 CATEGORY_INFO0 result mixedAnswers
  = Some [(8, YellowLight); (8, YellowLight); (8, YellowLight);
          (14, GreenLight)].
Proof. vm_compute. reflexivity. Qed.

(** ** The memo *)

Section MemoFacts.

Variable QUESTIONS : list Question.t.
Variable CATEGORY_INFO : Category -> CategoryInfo.

Lemma useMemo_coherent (cell : option MemoCell) (step : Step)
  (answers : gmap Z Z) :
  coherent QUESTIONS CATEGORY_INFO cell ->
  fst (useMemo QUESTIONS CATEGORY_INFO cell step answers)
    = localSummary QUESTIONS CATEGORY_INFO step answers /\
  coherent QUESTIONS CATEGORY_INFO
    (snd (useMemo QUESTIONS CATEGORY_INFO cell step answers)).
Proof.
  intros Hc. unfold useMemo. destruct cell as [c|].
  - destruct (decide (memoStep c = step /\ memoAnswers c = answers))
      as [[Es Ea]|_].
    + cbn [fst snd]. split; [|exact Hc].
      cbn in Hc. rewrite Hc, Es, Ea. reflexivity.
    + cbn. split; reflexivity.
  - cbn. split; reflexivity.
Qed.

Lemma renders_coherent (inputs : list (Step * gmap Z Z))
  (cell : option MemoCell) :
  coherent QUESTIONS CATEGORY_INFO cell ->
  fst (renders QUESTIONS CATEGORY_INFO cell inputs)
    = map (fun i => localSummary QUESTIONS CATEGORY_INFO (fst i) (snd i))
          inputs /\
  coherent QUESTIONS CATEGORY_INFO
    (snd (renders QUESTIONS CATEGORY_INFO cell inputs)).
Proof.
  revert cell. induction inputs as [|[step answers] rest IH]; intros cell Hc.
  - cbn. split; [reflexivity | exact Hc].
  - cbn [renders map fst snd].
    destruct (useMemo_coherent cell step answers Hc) as [Hv Hc'].
    destruct (useMemo QUESTIONS CATEGORY_INFO cell step answers)
      as [v cell'].
    cbn [fst snd] in Hv, Hc'. destruct (IH cell' Hc') as [Hvs Hlast].
    destruct (renders QUESTIONS CATEGORY_INFO cell' rest) as [vs last].
    cbn [fst snd] in *. split; [rewrite Hv, Hvs; reflexivity | exact Hlast].
Qed.

End MemoFacts.

(** C9. After any history of renders, the value of the memo is the
    summary of the [step] and [answers] of the current render, not of
    anything kept from earlier ones; a second render with the same
    [step] and [answers] returns the same value; and the values seen
    along the history are those of the inputs of each render. *)
Theorem C9_summary_deterministic
  (QUESTIONS : list Question.t) (CATEGORY_INFO : Category -> CategoryInfo)
  (history : list (Step * gmap Z Z)) (step : Step) (answers : gmap Z Z) :
  fst (useMemo QUESTIONS CATEGORY_INFO
         (snd (renders QUESTIONS CATEGORY_INFO None history)) step answers)
    = localSummary QUESTIONS CATEGORY_INFO step answers /\
  fst (useMemo QUESTIONS CATEGORY_INFO
         (snd (useMemo QUESTIONS CATEGORY_INFO
                 (snd (renders QUESTIONS CATEGORY_INFO None history))
                 step answers))
         step answers)
    = fst (useMemo QUESTIONS CATEGORY_INFO
             (snd (renders QUESTIONS CATEGORY_INFO None history))
             step answers) /\
  fst (renders QUESTIONS CATEGORY_INFO None history)
    = map (fun i => localSummary QUESTIONS CATEGORY_INFO (fst i) (snd i))
          history.
Proof.
  destruct (renders_coherent QUESTIONS CATEGORY_INFO history None I)
    as [Hvals Hc].
  destruct (useMemo_coherent QUESTIONS CATEGORY_INFO _ step answers Hc)
    as [Hv1 Hc1].
  destruct (useMemo_coherent QUESTIONS CATEGORY_INFO _ step answers Hc1)
    as [Hv2 _].
  split; [exact Hv1|]. split; [|exact Hvals].
  rewrite Hv2, Hv1. reflexivity.
Qed.

(** ** The two copies compared *)

(** C10. The two copies do not agree. Green starts at 12 of 15 in one
    and at 9 of 12 in the other, which are different fractions; on the
    same category score they give different levels exactly at 5, 6, 9,
    10 and 11. The fallback persona is a table of four bands in one
    and a single cut above 36 in the other; on the same total they
    differ exactly from 0 to 20 and from 37 to 47. *)
Theorem C10_variants_disagree :
  (forall sc, levelOf sc = GreenLight <-> 12 <= sc) /\
  (forall sc, Variant48.levelOf sc = GreenLight <-> 9 <= sc) /\
  12 * (4 * maxOptionValue) <> 9 * (5 * maxOptionValue) /\
  (forall sc, levelOf sc <> Variant48.levelOf sc <->
              5 <= sc < 7 \/ 9 <= sc < 12) /\
  (forall t, Variant48.fallbackId t = "charmer" <-> 36 < t) /\
  (forall t, Variant48.fallbackId t = "neighbor" <-> t <= 36) /\
  (forall t, fallbackId t <> Variant48.fallbackId t <->
             t <= 20 \/ 36 < t < 48) /\
  levelOf 9 = YellowLight /\ Variant48.levelOf 9 = GreenLight /\
  fallbackId 40 = "statue" /\ Variant48.fallbackId 40 = "charmer".
Proof.
  assert (HlA : forall sc, levelOf sc = GreenLight <-> 12 <= sc).
  { intros sc. unfold levelOf, levelColor.
    destruct (decide (12 <= sc)); [|destruct (decide (7 <= sc))];
      cbn [fst]; split; intros; try discriminate; try lia; reflexivity. }
  assert (HlB : forall sc, Variant48.levelOf sc = GreenLight <-> 9 <= sc).
  { intros sc. unfold Variant48.levelOf.
    destruct (decide (9 <= sc)); [|destruct (decide (5 <= sc))];
      split; intros; try discriminate; try lia; reflexivity. }
  split; [exact HlA|]. split; [exact HlB|].
  split; [unfold maxOptionValue; lia|].
  split.
  { intros sc. unfold levelOf, levelColor, Variant48.levelOf.
    destruct (decide (12 <= sc)); destruct (decide (7 <= sc));
      destruct (decide (9 <= sc)); destruct (decide (5 <= sc));
      cbn [fst]; try lia; split; intros H; try lia; try discriminate;
      try (exfalso; apply H; reflexivity). }
  split.
  { intros t. unfold Variant48.fallbackId.
    destruct (decide (36 < t)); split; intros;
      try discriminate; try lia; reflexivity. }
  split.
  { intros t. unfold Variant48.fallbackId.
    destruct (decide (36 < t)); split; intros;
      try discriminate; try lia; reflexivity. }
  split.
  { intros t. unfold fallbackId, Variant48.fallbackId.
    destruct (decide (48 <= t)); destruct (decide (38 <= t));
      destruct (decide (t <= 20)); destruct (decide (36 < t));
      try lia; split; intros H; try lia; try discriminate;
      try (exfalso; apply H; reflexivity). }
  repeat split.
Qed.

(** The same answers, the first thirteen questions answered 3, through
    both pages: a total of 39 in each, [statue] in one and [charmer] in
    the other. *)
Example same_answers_two_personas :
  (fallbackId ∘ totalScore) <$>
    localSummary QUESTIONS20 CATEGORY_INFO0 result (answeredUpTo 13 3)
  = Some "statue" /\
  (Variant48.fallbackId ∘ Variant48.totalScore) <$>
    Variant48.localSummary QUESTIONS16 CATEGORY_INFO48 result
      (answeredUpTo 13 3)
  = Some "charmer".
Proof. split; vm_compute; reflexivity. Qed.

(** * The page as a whole *)

(** ** What the handlers leave alone *)

Lemma at_index_Some {A : Type} (l : list A) (i : Z) :
  0 <= i < Z.of_nat (length l) ->
  exists x, at_index l i = Some x /\ l !! Z.to_nat i = Some x.
Proof.
  intros Hi. unfold at_index.
  destruct (decide (0 <= i)) as [_|Hneg]; [|lia].
  destruct (lookup_lt_is_Some_2 l (Z.to_nat i)) as [x Hx]; [lia|].
  exists x. split; exact Hx.
Qed.

Lemma at_index_None {A : Type} (l : list A) (i : Z) :
  i < 0 \/ Z.of_nat (length l) <= i -> at_index l i = None.
Proof.
  intros Hi. unfold at_index.
  destruct (decide (0 <= i)) as [Hpos|_]; [|reflexivity].
  apply lookup_ge_None. lia.
Qed.

Section PageFacts.

Variable QUESTIONS : list Question.t.
Variable CATEGORY_INFO : Category -> CategoryInfo.
Variable OPTIONS : list Opt.t.
Variable GEMINI_API_KEY : string.

(** A diagnosis touches neither the screen, nor the place in the
    quiz, nor the answers, nor the key the user typed. *)
Lemma runDiagnosis_frame (forceFallback : bool) (overrideKey : string)
  (now : Z) (outcome : AiOutcome) (s : AppState.t) :
  let s' := runDiagnosis QUESTIONS CATEGORY_INFO GEMINI_API_KEY
              forceFallback overrideKey now outcome s in
  AppState.step s' = AppState.step s /\
  AppState.currentIdx s' = AppState.currentIdx s /\
  AppState.isIntroMode s' = AppState.isIntroMode s /\
  AppState.answers s' = AppState.answers s /\
  AppState.customApiKey s' = AppState.customApiKey s.
Proof.
  cbv zeta. unfold runDiagnosis.
  destruct (summaryOf QUESTIONS CATEGORY_INFO s) as [ls|];
    [|repeat split; auto].
  repeat (match goal with
          | |- context [if ?b then _ else _] => destruct b
          | |- context [match ?o with AiReturned _ => _ | AiThrew _ => _ end] =>
              destruct o
          | |- context [let '(_, _) := ?p in _] => destruct p
          end);
    destruct s; cbn; repeat split; auto.
Qed.

Lemma pageInv_frame (s s' : AppState.t) :
  AppState.step s' = AppState.step s ->
  AppState.currentIdx s' = AppState.currentIdx s ->
  AppState.isIntroMode s' = AppState.isIntroMode s ->
  AppState.answers s' = AppState.answers s ->
  (AppState.step s = result ->
   is_Some (AppState.aiAnalysis s) -> is_Some (AppState.aiAnalysis s')) ->
  pageInv QUESTIONS OPTIONS s -> pageInv QUESTIONS OPTIONS s'.
Proof.
  intros Hst Hidx Hintro Hans Hai [I1 I2 I3 I4 I5 I6].
  split; rewrite ?Hst, ?Hidx, ?Hintro, ?Hans; auto.
Qed.

(** The effect that starts the diagnosis runs on the diagnosing screen
    only. *)
Lemma autoDiagnosis_diagnosing (s : AppState.t) :
  autoDiagnosis QUESTIONS CATEGORY_INFO s = true ->
  AppState.step s = diagnosing.
Proof.
  unfold autoDiagnosis. intros H.
  repeat (apply andb_true_iff in H as [H _]).
  apply bool_decide_eq_true in H. exact H.
Qed.

(** A diagnosis on the diagnosing screen keeps the invariant of the
    page, whatever it does to the report. *)
Lemma runDiagnosis_inv (forceFallback : bool) (overrideKey : string)
  (now : Z) (outcome : AiOutcome) (s : AppState.t) :
  AppState.step s = diagnosing ->
  pageInv QUESTIONS OPTIONS s ->
  pageInv QUESTIONS OPTIONS
    (runDiagnosis QUESTIONS CATEGORY_INFO GEMINI_API_KEY
       forceFallback overrideKey now outcome s).
Proof.
  intros Hd Hinv.
  destruct (runDiagnosis_frame forceFallback overrideKey now outcome s)
    as (H1 & H2 & H3 & H4 & _).
  apply (pageInv_frame s); auto.
  intros Hr. rewrite Hd in Hr. discriminate.
Qed.

(** ** One event *)

Lemma handleStart_fields (s : AppState.t) :
  AppState.step (handleStart s) = quiz /\
  AppState.currentIdx (handleStart s) = 0 /\
  AppState.isIntroMode (handleStart s) = true /\
  AppState.answers (handleStart s) = ∅ /\
  AppState.aiAnalysis (handleStart s) = None.
Proof. destruct s. repeat split. Qed.

Lemma handleStart_inv (s : AppState.t) :
  QUESTIONS <> [] -> pageInv QUESTIONS OPTIONS (handleStart s).
Proof.
  intros Hne.
  destruct (handleStart_fields s) as (Hst & Hidx & Hintro & Hans & _).
  split; rewrite ?Hst, ?Hidx, ?Hintro, ?Hans; try discriminate.
  - intros _. destruct QUESTIONS; [contradiction|]. cbn [length]. lia.
  - intros _ _. reflexivity.
  - intros _ j q Hj. lia.
  - intros [H|H]; discriminate.
Qed.

Lemma nextStep_intro_inv (s : AppState.t) :
  AppState.step s = quiz -> AppState.isIntroMode s = true ->
  pageInv QUESTIONS OPTIONS s ->
  pageInv QUESTIONS OPTIONS (nextStep QUESTIONS s s).
Proof.
  intros Hq Hi [I1 I2 I3 I4 I5 I6]. unfold nextStep. rewrite Hi.
  destruct s; cbn in *; split; cbn; auto.
Qed.

Lemma prevStep_inv (s : AppState.t) :
  AppState.step s = quiz ->
  pageInv QUESTIONS OPTIONS s ->
  pageInv QUESTIONS OPTIONS (prevStep s s).
Proof.
  intros Hq [I1 I2 I3 I4 I5 I6]. unfold prevStep.
  destruct s as [st idx intro ans ai load key show ref last err].
  cbn in *. subst st.
  specialize (I1 eq_refl). specialize (I2 eq_refl). specialize (I4 eq_refl).
  destruct intro.
  - destruct (decide (0 < idx)); split; cbn; try discriminate; auto.
    + intros _. lia.
    + intros _ j q Hj. apply I4. lia.
    + intros [H|H]; discriminate.
  - destruct (decide (Z.rem idx 5 = 0)) as [Hr|Hr]; split; cbn;
      try discriminate; auto.
    + intros _. assert (idx <> 0) by (intros ->; apply Hr; reflexivity). lia.
    + intros _ j q Hj. apply I4. lia.
Qed.

Lemma answer_inv (i : nat) (opt : Opt.t) (s : AppState.t) :
  AppState.step s = quiz -> AppState.isIntroMode s = false ->
  OPTIONS !! i = Some opt ->
  pageInv QUESTIONS OPTIONS s ->
  exists s1,
    handleAnswer QUESTIONS (Opt.value opt) s s = Some s1 /\
    pageInv QUESTIONS OPTIONS (nextStep QUESTIONS s s1).
Proof.
  intros Hq Hi Hopt [I1 I2 I3 I4 I5 I6].
  specialize (I1 Hq). specialize (I4 Hq).
  destruct (at_index_Some QUESTIONS (AppState.currentIdx s) I1)
    as [q [Hat Hlook]].
  unfold handleAnswer. rewrite Hat. eexists. split; [reflexivity|].
  assert (Hqin : q ∈ QUESTIONS)
    by (apply list_elem_of_lookup; eexists; exact Hlook).
  assert (Hoin : opt ∈ OPTIONS)
    by (apply list_elem_of_lookup; eexists; exact Hopt).
  assert (Hans : forall k v,
            <[Question.id q := Opt.value opt]> (AppState.answers s) !! k
              = Some v ->
            (exists q0, q0 ∈ QUESTIONS /\ Question.id q0 = k) /\
            (exists o, o ∈ OPTIONS /\ Opt.value o = v)).
  { intros k v Hk. destruct (decide (Question.id q = k)) as [<-|Hne].
    - rewrite lookup_insert_eq in Hk. injection Hk as <-.
      split; eexists; split; eauto.
    - rewrite lookup_insert_ne in Hk by exact Hne. apply I3. exact Hk. }
  assert (Hupto : forall (j : nat) q0,
            Z.of_nat j < AppState.currentIdx s + 1 ->
            QUESTIONS !! j = Some q0 ->
            is_Some (<[Question.id q := Opt.value opt]> (AppState.answers s)
                       !! Question.id q0)).
  { intros j q0 Hj Hq0.
    destruct (decide (Question.id q = Question.id q0)) as [E|Hne].
    - rewrite E, lookup_insert_eq. eexists. reflexivity.
    - rewrite lookup_insert_ne by exact Hne.
      destruct (decide (Z.of_nat j < AppState.currentIdx s)) as [Hlt|Hge].
      + apply (I4 j q0 Hlt Hq0).
      + assert (Z.to_nat (AppState.currentIdx s) = j) by lia. subst j.
        rewrite Hlook in Hq0. injection Hq0 as <-. contradiction. }
  unfold nextStep. rewrite Hi.
  destruct s as [st idx intro ans ai load key show ref last err].
  cbn in *. subst st intro.
  destruct (decide (idx < Z.of_nat (length QUESTIONS) - 1)) as [Hlt|Hlast].
  - destruct (decide (Z.rem (idx + 1) 5 = 0)) as [Hr|Hr]; split; cbn;
      try discriminate; auto; try (intros _; lia);
      intros [H|H]; discriminate.
  - split; cbn; try discriminate; auto.
    intros _ q0 Hq0. apply list_elem_of_lookup in Hq0 as [j Hj].
    apply (Hupto j q0); [|exact Hj].
    apply lookup_lt_Some in Hj. lia.
Qed.

Lemma dispatch_inv (e : Event) (s : AppState.t) :
  QUESTIONS <> [] ->
  pageInv QUESTIONS OPTIONS s ->
  exists s',
    dispatch QUESTIONS CATEGORY_INFO OPTIONS GEMINI_API_KEY e s = Some s' /\
    pageInv QUESTIONS OPTIONS s'.
Proof.
  intros Hne Hinv.
  assert (Hstay : exists s', Some s = Some s' /\ pageInv QUESTIONS OPTIONS s')
    by (exists s; split; [reflexivity | exact Hinv]).
  destruct e as [| | |i|now outcome|now outcome|now|key|]; cbn [dispatch].
  - match goal with |- context [if ?b then _ else _] => destruct b end;
      [|exact Hstay].
    eexists. split; [reflexivity|]. apply handleStart_inv. exact Hne.
  - destruct (bool_decide (AppState.step s = quiz)
              && AppState.isIntroMode s) eqn:E; [|exact Hstay].
    apply andb_true_iff in E as [Hq Hi]. apply bool_decide_eq_true in Hq.
    eexists. split; [reflexivity|]. apply nextStep_intro_inv; assumption.
  - destruct (bool_decide (AppState.step s = quiz)) eqn:E; [|exact Hstay].
    apply bool_decide_eq_true in E.
    eexists. split; [reflexivity|]. apply prevStep_inv; assumption.
  - destruct (bool_decide (AppState.step s = quiz)
              && negb (AppState.isIntroMode s)) eqn:E; [|exact Hstay].
    apply andb_true_iff in E as [Hq Hi]. apply bool_decide_eq_true in Hq.
    apply negb_true_iff in Hi.
    destruct (OPTIONS !! i) as [opt|] eqn:Hopt; [|exact Hstay].
    destruct (answer_inv i opt s Hq Hi Hopt Hinv) as [s1 [Hs1 Hinv1]].
    rewrite Hs1. eexists. split; [reflexivity | exact Hinv1].
  - destruct (autoDiagnosis QUESTIONS CATEGORY_INFO s) eqn:E;
      [|exact Hstay].
    eexists. split; [reflexivity|].
    apply runDiagnosis_inv; [|exact Hinv].
    apply autoDiagnosis_diagnosing. exact E.
  - match goal with
    | |- context [if ?b then _ else _] => destruct b eqn:E
    end; [|exact Hstay].
    eexists. split; [reflexivity|].
    apply runDiagnosis_inv; [|exact Hinv].
    apply andb_true_iff in E as [E _]. apply andb_true_iff in E as [E _].
    apply bool_decide_eq_true in E. exact E.
  - match goal with
    | |- context [if ?b then _ else _] => destruct b eqn:E
    end; [|exact Hstay].
    eexists. split; [reflexivity|].
    apply runDiagnosis_inv; [|exact Hinv].
    apply andb_true_iff in E as [E _].
    apply bool_decide_eq_true in E. exact E.
  - match goal with |- context [if ?b then _ else _] => destruct b end;
      [|exact Hstay].
    eexists. split; [reflexivity|].
    apply (pageInv_frame s); destruct s; cbn; auto.
  - destruct (bool_decide (AppState.step s = diagnosing)
              && bool_decide (is_Some (AppState.aiAnalysis s))) eqn:E;
      [|exact Hstay].
    apply andb_true_iff in E as [Hd Hai].
    apply bool_decide_eq_true in Hd. apply bool_decide_eq_true in Hai.
    eexists. split; [reflexivity|].
    destruct Hinv as [I1 I2 I3 I4 I5 I6].
    destruct s as [st idx intro ans ai load key show ref last err].
    cbn in *. subst st. split; cbn; try discriminate; auto.
Qed.

Lemma initialState_inv : pageInv QUESTIONS OPTIONS initialState.
Proof.
  split; unfold initialState; cbn [AppState.step AppState.answers];
    try discriminate.
  intros [H|H]; discriminate.
Qed.

Lemma run_inv (events : list Event) (s : AppState.t) :
  QUESTIONS <> [] ->
  pageInv QUESTIONS OPTIONS s ->
  exists s',
    run QUESTIONS CATEGORY_INFO OPTIONS GEMINI_API_KEY events s = Some s' /\
    pageInv QUESTIONS OPTIONS s'.
Proof.
  intros Hne. revert s. induction events as [|e rest IH]; intros s Hinv.
  - exists s. split; [reflexivity | exact Hinv].
  - cbn [run]. destruct (dispatch_inv e s Hne Hinv) as [s1 [Hs1 Hinv1]].
    rewrite Hs1. apply IH. exact Hinv1.
Qed.

End PageFacts.

(** ** What every run of the page keeps *)

(** X1. Whatever the user clicks and whatever the AI call comes to, no
    handler throws, and while the quiz is on display [currentIdx]
    points at a question of the bank; a category intro is only shown
    at the first question of a group of five. The bank must not be
    empty. *)
Theorem X1_quiz_screen_has_a_question
  (QUESTIONS : list Question.t) (CATEGORY_INFO : Category -> CategoryInfo)
  (OPTIONS : list Opt.t) (GEMINI_API_KEY : string) (events : list Event) :
  QUESTIONS <> [] ->
  exists s,
    run QUESTIONS CATEGORY_INFO OPTIONS GEMINI_API_KEY events initialState
      = Some s /\
    (AppState.step s = quiz ->
     (exists q, at_index QUESTIONS (AppState.currentIdx s) = Some q) /\
     (AppState.isIntroMode s = true ->
      Z.rem (AppState.currentIdx s) 5 = 0)).
Proof.
  intros Hne.
  destruct (run_inv QUESTIONS CATEGORY_INFO OPTIONS GEMINI_API_KEY events
              initialState Hne (initialState_inv QUESTIONS OPTIONS))
    as [s [Hrun Hinv]].
  exists s. split; [exact Hrun|]. intros Hq. split.
  - destruct (at_index_Some QUESTIONS (AppState.currentIdx s)
                (inv_index _ _ _ Hinv Hq)) as [q [Hat _]].
    exists q. exact Hat.
  - exact (inv_intro _ _ _ Hinv Hq).
Qed.

(** X2. When the page is on the diagnosing or the result screen, every
    question of the bank has an answer; and at any time every stored
    answer belongs to a question of the bank and is the value of one
    of the options. *)
Theorem X2_answers_complete_and_from_options
  (QUESTIONS : list Question.t) (CATEGORY_INFO : Category -> CategoryInfo)
  (OPTIONS : list Opt.t) (GEMINI_API_KEY : string) (events : list Event)
  (s : AppState.t) :
  QUESTIONS <> [] ->
  run QUESTIONS CATEGORY_INFO OPTIONS GEMINI_API_KEY events initialState
    = Some s ->
  (AppState.step s = diagnosing \/ AppState.step s = result ->
   forall q, q ∈ QUESTIONS ->
     exists o, o ∈ OPTIONS /\
       AppState.answers s !! Question.id q = Some (Opt.value o)) /\
  (forall k v, AppState.answers s !! k = Some v ->
     (exists q, q ∈ QUESTIONS /\ Question.id q = k) /\
     (exists o, o ∈ OPTIONS /\ Opt.value o = v)).
Proof.
  intros Hne Hrun.
  destruct (run_inv QUESTIONS CATEGORY_INFO OPTIONS GEMINI_API_KEY events
              initialState Hne (initialState_inv QUESTIONS OPTIONS))
    as [s' [Hrun' Hinv]].
  rewrite Hrun in Hrun'. injection Hrun' as <-.
  split; [|exact (inv_answers _ _ _ Hinv)].
  intros Hstep q Hq.
  destruct (inv_complete _ _ _ Hinv Hstep q Hq) as [v Hv].
  destruct (inv_answers _ _ _ Hinv _ _ Hv) as [_ [o [Ho Hval]]].
  exists o. split; [exact Ho|]. rewrite Hv, Hval. reflexivity.
Qed.

(** The four categories split the bank. *)
Lemma catQuestions_partition (QUESTIONS : list Question.t) :
  (length (catQuestions QUESTIONS FaceComplexion)
   + length (catQuestions QUESTIONS HairStyling)
   + length (catQuestions QUESTIONS OutfitStrategy)
   + length (catQuestions QUESTIONS SocialImage))%nat
  = length QUESTIONS.
Proof.
  unfold catQuestions. induction QUESTIONS as [|q l IH]; [reflexivity|].
  rewrite !filter_cons.
  destruct q as [i c t]. cbn [Question.category].
  destruct c;
    repeat (match goal with
            | |- context [decide (?a = ?b)] =>
                destruct (decide (a = b)); try discriminate; try contradiction
            end);
    cbn [length]; lia.
Qed.

Lemma totalScore_sum (QUESTIONS : list Question.t)
  (CATEGORY_INFO : Category -> CategoryInfo) (step : Step)
  (answers : gmap Z Z) (sm : Summary) :
  localSummary QUESTIONS CATEGORY_INFO step answers = Some sm ->
  totalScore sm =
    catScore QUESTIONS answers FaceComplexion
    + catScore QUESTIONS answers HairStyling
    + catScore QUESTIONS answers OutfitStrategy
    + catScore QUESTIONS answers SocialImage.
Proof.
  intros Hs. apply localSummary_Some in Hs as [Hsum Htot].
  rewrite Htot, Hsum, fold_left_add. unfold categories.
  cbn [map sumZ foldr dimension DimensionResult.score]. lia.
Qed.

(** X3. With options valued from -1 to 3, the scores the page shows
    are within the scales it draws them on: on the diagnosing and
    result screens each category score lies between 0 and three times
    the number of its questions ([max: 15] on the chart for five
    questions), and the total between 0 and three times the size of
    the bank (the [/60] of the 20-question bank). *)
Theorem X3_page_scores_within_scale
  (QUESTIONS : list Question.t) (CATEGORY_INFO : Category -> CategoryInfo)
  (OPTIONS : list Opt.t) (GEMINI_API_KEY : string) (events : list Event)
  (s : AppState.t) :
  QUESTIONS <> [] ->
  (forall o, o ∈ OPTIONS -> -1 <= Opt.value o <= maxOptionValue) ->
  run QUESTIONS CATEGORY_INFO OPTIONS GEMINI_API_KEY events initialState
    = Some s ->
  AppState.step s = diagnosing \/ AppState.step s = result ->
  exists sm,
    summaryOf QUESTIONS CATEGORY_INFO s = Some sm /\
    (forall r, r ∈ summary sm ->
       0 <= DimensionResult.score r
         <= maxOptionValue *
            Z.of_nat (length (catQuestions QUESTIONS
                                (DimensionResult.category r)))) /\
    0 <= totalScore sm <= maxOptionValue * Z.of_nat (length QUESTIONS).
Proof.
  intros Hne Hopts Hrun Hstep.
  destruct (run_inv QUESTIONS CATEGORY_INFO OPTIONS GEMINI_API_KEY events
              initialState Hne (initialState_inv QUESTIONS OPTIONS))
    as [s' [Hrun' Hinv]].
  rewrite Hrun in Hrun'. injection Hrun' as <-.
  assert (Hscale : forall q v, q ∈ QUESTIONS ->
            AppState.answers s !! Question.id q = Some v ->
            -1 <= v <= maxOptionValue).
  { intros q v _ Hv.
    destruct (inv_answers _ _ _ Hinv _ _ Hv) as [_ [o [Ho <-]]].
    apply Hopts. exact Ho. }
  unfold summaryOf.
  destruct (localSummary_defined QUESTIONS CATEGORY_INFO (AppState.step s)
              (AppState.answers s)) as [sm Hsm];
    [destruct Hstep; auto|].
  exists sm. split; [exact Hsm|]. split.
  - intros r Hr. rewrite (summary_entry _ _ _ _ _ _ Hsm Hr) at 1 2.
    cbn [dimension DimensionResult.score].
    apply catScore_in_scale. exact Hscale.
  - rewrite (totalScore_sum _ _ _ _ _ Hsm).
    pose proof (catScore_in_scale QUESTIONS (AppState.answers s)
                  FaceComplexion Hscale).
    pose proof (catScore_in_scale QUESTIONS (AppState.answers s)
                  HairStyling Hscale).
    pose proof (catScore_in_scale QUESTIONS (AppState.answers s)
                  OutfitStrategy Hscale).
    pose proof (catScore_in_scale QUESTIONS (AppState.answers s)
                  SocialImage Hscale).
    pose proof (catQuestions_partition QUESTIONS).
    unfold maxOptionValue in *. lia.
Qed.

(** X4. The guard of the result screen holds whenever the page is on
    it. With every delayed step run before the next event: in a state
    where [step] is ['result'], [localSummary] is not [null] and
    [aiAnalysis] is not [null], the two values the guard
    [step === 'result' && localSummary && aiAnalysis] asks for besides
    the step. The report is the value the diagnosis stored, the basic
    report or whatever the AI returned; what the screen reads from it
    is no part of this statement. *)
Theorem X4_result_screen_guard_holds
  (QUESTIONS : list Question.t) (CATEGORY_INFO : Category -> CategoryInfo)
  (OPTIONS : list Opt.t) (GEMINI_API_KEY : string) (events : list Event)
  (s : AppState.t) :
  QUESTIONS <> [] ->
  run QUESTIONS CATEGORY_INFO OPTIONS GEMINI_API_KEY events initialState
    = Some s ->
  AppState.step s = result ->
  is_Some (summaryOf QUESTIONS CATEGORY_INFO s) /\
  is_Some (AppState.aiAnalysis s).
Proof.
  intros Hne Hrun Hres.
  destruct (run_inv QUESTIONS CATEGORY_INFO OPTIONS GEMINI_API_KEY events
              initialState Hne (initialState_inv QUESTIONS OPTIONS))
    as [s' [Hrun' Hinv]].
  rewrite Hrun in Hrun'. injection Hrun' as <-.
  split; [|exact (inv_report _ _ _ Hinv Hres)].
  unfold summaryOf.
  destruct (localSummary_defined QUESTIONS CATEGORY_INFO (AppState.step s)
              (AppState.answers s)) as [sm Hsm]; [left; exact Hres|].
  rewrite Hsm. eexists. reflexivity.
Qed.

(** ** Back and forward *)


(** X5. On the quiz screen "back" undoes "forward" and "forward" undoes
    "back": stepping forward and then back returns to the same place
    (unless the step left the quiz at the last question), and stepping
    back and then forward does too (unless the step left the quiz at
    the first intro). *)
Theorem X5_back_and_forward_are_inverse
  (QUESTIONS : list Question.t) (s : AppState.t) :
  0 <= AppState.currentIdx s < Z.of_nat (length QUESTIONS) ->
  (AppState.isIntroMode s = true -> Z.rem (AppState.currentIdx s) 5 = 0) ->
  (AppState.isIntroMode s = true \/
   AppState.currentIdx s < Z.of_nat (length QUESTIONS) - 1 ->
   prevStep (nextStep QUESTIONS s s) (nextStep QUESTIONS s s) = s) /\
  (AppState.isIntroMode s = false \/ 0 < AppState.currentIdx s ->
   nextStep QUESTIONS (prevStep s s) (prevStep s s) = s).
Proof.
  intros Hidx Hintro.
  destruct s as [st idx intro ans ai load key show ref last err].
  cbn in *. split.
  - intros Hfw. unfold nextStep, prevStep. simpl_state.
    destruct intro; simpl_state.
    + specialize (Hintro eq_refl).
      destruct (decide (Z.rem idx 5 = 0)); [reflexivity | contradiction].
    + destruct Hfw as [Hfw|Hfw]; [discriminate|].
      destruct (decide (idx < Z.of_nat (length QUESTIONS) - 1)); [|lia].
      destruct (decide (Z.rem (idx + 1) 5 = 0)) as [Hr|Hr]; simpl_state.
      * destruct (decide (0 < idx + 1)); [|lia].
        simpl_state. f_equal. lia.
      * destruct (decide (Z.rem (idx + 1) 5 = 0)); [contradiction|].
        simpl_state. f_equal. lia.
  - intros Hbw. unfold nextStep, prevStep. simpl_state.
    destruct intro; simpl_state.
    + specialize (Hintro eq_refl).
      destruct Hbw as [Hbw|Hbw]; [discriminate|].
      destruct (decide (0 < idx)); [|lia]. simpl_state.
      destruct (decide (idx - 1 < Z.of_nat (length QUESTIONS) - 1)); [|lia].
      replace (idx - 1 + 1) with idx by lia.
      destruct (decide (Z.rem idx 5 = 0)); [|contradiction].
      reflexivity.
    + destruct (decide (Z.rem idx 5 = 0)) as [Hr|Hr]; simpl_state;
        [reflexivity|].
      assert (idx <> 0) by (intros ->; apply Hr; reflexivity).
      destruct (decide (idx - 1 < Z.of_nat (length QUESTIONS) - 1)); [|lia].
      replace (idx - 1 + 1) with idx by lia.
      destruct (decide (Z.rem idx 5 = 0)); [contradiction|].
      reflexivity.
Qed.

(** X6. Two clicks on options of the same question, both before the
    delayed step of the first has run, count once: the later value is
    the one stored, and the two delayed steps together move the quiz
    on by one question, as one click on the later option does. The
    two clicks come from renders that show the same question. *)
Theorem X6_double_click_counts_once
  (QUESTIONS : list Question.t) (v1 v2 : Z) (c1 c2 s s1 : AppState.t) :
  AppState.currentIdx c2 = AppState.currentIdx c1 ->
  AppState.isIntroMode c2 = AppState.isIntroMode c1 ->
  handleAnswer QUESTIONS v1 c1 s = Some s1 ->
  exists s2 s2',
    handleAnswer QUESTIONS v2 c2 s1 = Some s2 /\
    handleAnswer QUESTIONS v2 c1 s = Some s2' /\
    nextStep QUESTIONS c2 (nextStep QUESTIONS c1 s2)
      = nextStep QUESTIONS c1 s2'.
Proof.
  intros Hidx Hintro H1. unfold handleAnswer in *. rewrite Hidx.
  destruct (at_index QUESTIONS (AppState.currentIdx c1)) as [q|];
    [|discriminate].
  injection H1 as <-. eexists. eexists.
  split; [reflexivity|]. split; [reflexivity|].
  unfold nextStep. rewrite Hidx, Hintro.
  destruct s as [st idx intro ans ai load key show ref last err].
  simpl_state. rewrite insert_insert_eq.
  destruct (AppState.isIntroMode c1); [reflexivity|].
  destruct (decide (AppState.currentIdx c1 < Z.of_nat (length QUESTIONS) - 1));
    [|reflexivity].
  destruct (decide (Z.rem (AppState.currentIdx c1 + 1) 5 = 0)); reflexivity.
Qed.

(** ** The diagnosis *)

Section DiagnosisFacts.

Variable QUESTIONS : list Question.t.
Variable CATEGORY_INFO : Category -> CategoryInfo.
Variable OPTIONS : list Opt.t.
Variable GEMINI_API_KEY : string.

Lemma errorMessage_not_empty (errString : string) :
  fst (errorMessage errString) <> EmptyString.
Proof.
  unfold errorMessage.
  destruct (includes errString "400" && includes errString "API key");
    [discriminate|].
  destruct (includes errString "429"); discriminate.
Qed.

Lemma summaryOf_defined (s : AppState.t) :
  AppState.step s = diagnosing \/ AppState.step s = result ->
  exists ls, summaryOf QUESTIONS CATEGORY_INFO s = Some ls.
Proof.
  intros Hs. apply localSummary_defined. destruct Hs; auto.
Qed.

(** A forced run goes through whatever the guards hold. *)
Lemma runDiagnosis_forced (overrideKey : string) (now : Z)
  (outcome : AiOutcome) (s : AppState.t) (ls : Summary) :
  summaryOf QUESTIONS CATEGORY_INFO s = Some ls ->
  let s' := runDiagnosis QUESTIONS CATEGORY_INFO GEMINI_API_KEY
              true overrideKey now outcome s in
  AppState.aiAnalysis s' = Some (fallbackAnalysis true ls) /\
  AppState.lastError s' = EmptyString /\
  AppState.isAiLoading s' = false /\
  AppState.aiFetchingRef s' = false /\
  AppState.showKeyInput s' = false.
Proof.
  intros Hls. cbv zeta. unfold runDiagnosis. rewrite Hls.
  rewrite andb_false_r. cbn [negb andb].
  destruct s; cbn. repeat split.
Qed.

(** A run that was not refused leaves a report or an error message
    behind, except when the response parsed to [null]: then neither
    is there, and the mark of a request in flight stays set. *)
Lemma runDiagnosis_settles (forceFallback : bool) (overrideKey : string)
  (now : Z) (outcome : AiOutcome) (s : AppState.t) :
  let s' := runDiagnosis QUESTIONS CATEGORY_INFO GEMINI_API_KEY
              forceFallback overrideKey now outcome s in
  s' = s \/
  is_Some (AppState.aiAnalysis s') \/
  AppState.lastError s' <> EmptyString \/
  (outcome = AiReturned None /\
   AppState.aiAnalysis s' = None /\
   AppState.lastError s' = EmptyString /\
   AppState.aiFetchingRef s' = true).
Proof.
  cbv zeta. unfold runDiagnosis.
  destruct (summaryOf QUESTIONS CATEGORY_INFO s) as [ls|]; [|left; reflexivity].
  match goal with |- context [if ?b then _ else _] => destruct b end;
    [left; reflexivity|].
  match goal with |- context [if ?b then _ else _] => destruct b end;
    [left; reflexivity|].
  right. destruct forceFallback.
  - left. destruct s; cbn. eexists. reflexivity.
  - match goal with |- context [decide ?P] => destruct (decide P) end.
    + right. left. destruct s; cbn. discriminate.
    + destruct outcome as [[report|]|errString].
      * left. destruct s; cbn. eexists. reflexivity.
      * right. right. destruct s; cbn. repeat split.
      * right. left. pose proof (errorMessage_not_empty errString) as Hmsg.
        destruct (errorMessage errString) as [msg showKey].
        cbn [fst] in Hmsg. destruct s, showKey; cbn; exact Hmsg.
Qed.

Lemma autoDiagnosis_true (s : AppState.t) :
  autoDiagnosis QUESTIONS CATEGORY_INFO s = true ->
  AppState.step s = diagnosing /\
  AppState.lastError s = EmptyString /\
  AppState.aiAnalysis s = None /\
  AppState.showKeyInput s = false /\
  AppState.aiFetchingRef s = false.
Proof.
  unfold autoDiagnosis. intros H.
  repeat (apply andb_true_iff in H as [H ?]).
  repeat match goal with
         | H : bool_decide _ = true |- _ => apply bool_decide_eq_true in H
         | H : negb _ = true |- _ => apply negb_true_iff in H
         end.
  repeat split; assumption.
Qed.

Lemma autoDiagnosis_false_of (s : AppState.t) :
  is_Some (AppState.aiAnalysis s) \/
  AppState.lastError s <> EmptyString \/
  AppState.aiFetchingRef s = true ->
  autoDiagnosis QUESTIONS CATEGORY_INFO s = false.
Proof.
  intros H. destruct (autoDiagnosis QUESTIONS CATEGORY_INFO s) eqn:E;
    [|reflexivity].
  apply autoDiagnosis_true in E as (_ & Herr & Hai & _ & Href).
  destruct H as [[r Hr]|[Hne|Ht]]; [congruence | contradiction | congruence].
Qed.

(** What a run that was not refused leaves behind makes the condition
    of the effect false. *)
Lemma runDiagnosis_stops_effect (forceFallback : bool)
  (overrideKey : string) (now : Z) (outcome : AiOutcome) (s : AppState.t) :
  runDiagnosis QUESTIONS CATEGORY_INFO GEMINI_API_KEY
    forceFallback overrideKey now outcome s = s \/
  autoDiagnosis QUESTIONS CATEGORY_INFO
    (runDiagnosis QUESTIONS CATEGORY_INFO GEMINI_API_KEY
       forceFallback overrideKey now outcome s) = false.
Proof.
  destruct (runDiagnosis_settles forceFallback overrideKey now outcome s)
    as [E|[H|[H|(_ & _ & _ & H)]]].
  - left. exact E.
  - right. apply autoDiagnosis_false_of. left. exact H.
  - right. apply autoDiagnosis_false_of. right. left. exact H.
  - right. apply autoDiagnosis_false_of. right. right. exact H.
Qed.

End DiagnosisFacts.

(** X7. From the error card, "skip the AI" always ends on the result
    screen with the basic report, whatever the time of the last
    request and whether or not one is still marked as running; the
    persona of that report is the one the fallback table gives for
    the total score, and the page shows it when the persona table has
    a row for every id. *)
Theorem X7_skip_leads_to_fallback_result
  (QUESTIONS : list Question.t) (CATEGORY_INFO : Category -> CategoryInfo)
  (OPTIONS : list Opt.t) (GEMINI_API_KEY : string)
  (PERSONAS : list Persona.t) (now : Z) (s : AppState.t) :
  AppState.step s = diagnosing ->
  AppState.lastError s <> EmptyString ->
  (forall i, i ∈ personaIds -> exists q, q ∈ PERSONAS /\ Persona.id q = i) ->
  exists s' ls p,
    run QUESTIONS CATEGORY_INFO OPTIONS GEMINI_API_KEY
      [ClickSkip now; ShowResult] s = Some s' /\
    AppState.step s' = result /\
    summaryOf QUESTIONS CATEGORY_INFO s' = Some ls /\
    AppState.aiAnalysis s' = Some (fallbackAnalysis true ls) /\
    activePersona PERSONAS (AppState.aiAnalysis s') = Some p /\
    Persona.id p = fallbackId (totalScore ls).
Proof.
  intros Hstep Herr Hall.
  destruct (summaryOf_defined QUESTIONS CATEGORY_INFO s (or_introl Hstep))
    as [ls Hls].
  pose proof (runDiagnosis_forced QUESTIONS CATEGORY_INFO GEMINI_API_KEY
                EmptyString now (AiThrew EmptyString) s ls Hls) as Hforced.
  pose proof (runDiagnosis_frame QUESTIONS CATEGORY_INFO GEMINI_API_KEY
                true EmptyString now (AiThrew EmptyString) s) as Hframe.
  cbv zeta in Hforced, Hframe.
  set (s1 := runDiagnosis QUESTIONS CATEGORY_INFO GEMINI_API_KEY true
               EmptyString now (AiThrew EmptyString) s) in *.
  destruct Hforced as (Hai & _). destruct Hframe as (Hst & _ & _ & Hans & _).
  destruct (forced_fallback_persona PERSONAS true ls Hall) as [p [Hp [_ Hid]]].
  exists (setStep result s1), ls, p.
  split.
  { cbn [run dispatch]. rewrite Hstep.
    rewrite bool_decide_eq_true_2 by reflexivity.
    rewrite (bool_decide_eq_false_2 _ Herr). cbn [negb andb].
    fold s1. rewrite Hst, Hstep, Hai.
    rewrite bool_decide_eq_true_2 by reflexivity.
    rewrite bool_decide_eq_true_2 by (eexists; reflexivity).
    reflexivity. }
  assert (Hls' : summaryOf QUESTIONS CATEGORY_INFO (setStep result s1)
                 = Some ls).
  { unfold summaryOf in *. rewrite <- Hls.
    replace (AppState.answers (setStep result s1)) with (AppState.answers s)
      by (rewrite <- Hans; destruct s1; reflexivity).
    replace (AppState.step (setStep result s1)) with result
      by (destruct s1; reflexivity).
    rewrite Hstep. reflexivity. }
  replace (AppState.aiAnalysis (setStep result s1))
    with (AppState.aiAnalysis s1) by (destruct s1; reflexivity).
  rewrite Hai. repeat split; assumption.
Qed.

(** X8. The effect that starts the diagnosis cannot loop. A run it
    starts is either refused, and then changes nothing, or it leaves
    the condition of the effect false, for one of three reasons: a
    report is stored, or an error message is set, or the response
    parsed to [null] and then no report and no message are there but
    the mark of a request in flight stays set. Once that condition is
    false on the diagnosing screen, no click and no effect makes it
    true again. *)
Theorem X8_automatic_diagnosis_does_not_loop
  (QUESTIONS : list Question.t) (CATEGORY_INFO : Category -> CategoryInfo)
  (OPTIONS : list Opt.t) (GEMINI_API_KEY : string) :
  (forall now outcome s,
     runDiagnosis QUESTIONS CATEGORY_INFO GEMINI_API_KEY false EmptyString
       now outcome s = s \/
     (autoDiagnosis QUESTIONS CATEGORY_INFO
        (runDiagnosis QUESTIONS CATEGORY_INFO GEMINI_API_KEY false
           EmptyString now outcome s) = false /\
      (is_Some (AppState.aiAnalysis
                  (runDiagnosis QUESTIONS CATEGORY_INFO GEMINI_API_KEY false
                     EmptyString now outcome s)) \/
       AppState.lastError
         (runDiagnosis QUESTIONS CATEGORY_INFO GEMINI_API_KEY false
            EmptyString now outcome s) <> EmptyString \/
       (outcome = AiReturned None /\
        AppState.aiAnalysis
          (runDiagnosis QUESTIONS CATEGORY_INFO GEMINI_API_KEY false
             EmptyString now outcome s) = None /\
        AppState.lastError
          (runDiagnosis QUESTIONS CATEGORY_INFO GEMINI_API_KEY false
             EmptyString now outcome s) = EmptyString /\
        AppState.aiFetchingRef
          (runDiagnosis QUESTIONS CATEGORY_INFO GEMINI_API_KEY false
             EmptyString now outcome s) = true)))) /\
  (forall e s s',
     AppState.step s = diagnosing ->
     autoDiagnosis QUESTIONS CATEGORY_INFO s = false ->
     dispatch QUESTIONS CATEGORY_INFO OPTIONS GEMINI_API_KEY e s = Some s' ->
     autoDiagnosis QUESTIONS CATEGORY_INFO s' = false).
Proof.
  assert (Hrun : forall force now outcome s,
            autoDiagnosis QUESTIONS CATEGORY_INFO s = false ->
            autoDiagnosis QUESTIONS CATEGORY_INFO
              (runDiagnosis QUESTIONS CATEGORY_INFO GEMINI_API_KEY force
                 EmptyString now outcome s) = false).
  { intros force now outcome s Hoff.
    destruct (runDiagnosis_stops_effect QUESTIONS CATEGORY_INFO
                GEMINI_API_KEY force EmptyString now outcome s) as [E|H].
    - rewrite E. exact Hoff.
    - exact H. }
  split.
  - intros now outcome s.
    pose proof (runDiagnosis_settles QUESTIONS CATEGORY_INFO GEMINI_API_KEY
                  false EmptyString now outcome s) as Hs.
    cbv zeta in Hs. destruct Hs as [E|H]; [left; exact E|].
    right. split; [|exact H].
    apply autoDiagnosis_false_of.
    destruct H as [H|[H|(_ & _ & _ & H)]]; auto.
  - intros e s s' Hstep Hoff Hd.
    destruct e as [| | |i|now outcome|now outcome|now|key|];
      cbn [dispatch] in Hd; rewrite ?Hstep in Hd.
    + cbn in Hd. injection Hd as <-. exact Hoff.
    + cbn in Hd. injection Hd as <-. exact Hoff.
    + cbn in Hd. injection Hd as <-. exact Hoff.
    + cbn in Hd. injection Hd as <-. exact Hoff.
    + rewrite Hoff in Hd. injection Hd as <-. exact Hoff.
    + match type of Hd with (if ?b then _ else _) = _ => destruct b end;
        injection Hd as <-; [apply Hrun|]; exact Hoff.
    + match type of Hd with (if ?b then _ else _) = _ => destruct b end;
        injection Hd as <-; [apply Hrun|]; exact Hoff.
    + match type of Hd with (if ?b then _ else _) = _ => destruct b end;
        injection Hd as <-; [|exact Hoff].
      rewrite <- Hoff. unfold autoDiagnosis, summaryOf.
      destruct s; reflexivity.
    + match type of Hd with (if ?b then _ else _) = _ => destruct b end;
        injection Hd as <-; [|exact Hoff].
      unfold autoDiagnosis. destruct s; reflexivity.
Qed.

(** ** Text with marks *)

Lemma splitStars_1 (c : ascii) :
  splitStars (String c EmptyString) = [String c EmptyString].
Proof. reflexivity. Qed.

Lemma splitStars_2 (c c2 : ascii) (rest : string) :
  splitStars (String c (String c2 rest))
  = if Ascii.eqb c "*" && Ascii.eqb c2 "*"
    then EmptyString :: splitStars rest
    else consFirst c (splitStars (String c2 rest)).
Proof. reflexivity. Qed.

Lemma consFirst_not_nil (c : ascii) (parts : list string) :
  consFirst c parts <> [].
Proof. destruct parts; discriminate. Qed.

Lemma splitStars_not_nil (s : string) : splitStars s <> [].
Proof.
  destruct s as [|c [|c2 rest]].
  - discriminate.
  - rewrite splitStars_1. discriminate.
  - rewrite splitStars_2.
    destruct (Ascii.eqb c "*" && Ascii.eqb c2 "*");
      [discriminate | apply consFirst_not_nil].
Qed.

Lemma concat_consFirst (c : ascii) (parts : list string) :
  parts <> [] ->
  String.concat "**" (consFirst c parts)
  = String c (String.concat "**" parts).
Proof.
  destruct parts as [|p ps]; [contradiction|]. intros _.
  destruct ps; reflexivity.
Qed.

(** Two steps at a time, as [splitStars] goes. *)
Lemma string_pair_ind (P : string -> Prop) :
  P EmptyString ->
  (forall c, P (String c EmptyString)) ->
  (forall c c2 rest, P rest -> P (String c2 rest) ->
                     P (String c (String c2 rest))) ->
  forall s, P s.
Proof.
  intros H0 H1 H2 s.
  assert (H : P s /\ forall c, P (String c s)).
  { induction s as [|a s [IHs IHc]].
    - split; [exact H0 | exact H1].
    - split; [apply IHc|]. intros c. apply H2; [exact IHs | apply IHc]. }
  exact (proj1 H).
Qed.

Lemma concat_splitStars (s : string) :
  String.concat "**" (splitStars s) = s.
Proof.
  induction s as [|c|c c2 rest IH1 IH2] using string_pair_ind;
    [reflexivity | reflexivity |].
  assert (Hother :
    String.concat "**" (consFirst c (splitStars (String c2 rest)))
    = String c (String c2 rest)).
  { rewrite concat_consFirst by apply splitStars_not_nil.
    rewrite IH2. reflexivity. }
  rewrite splitStars_2.
  destruct (Ascii.eqb c "*") eqn:E1; [|exact Hother].
  destruct (Ascii.eqb c2 "*") eqn:E2; [|exact Hother].
  cbn [andb]. apply Ascii.eqb_eq in E1, E2. subst c c2.
  pose proof (splitStars_not_nil rest) as Hne.
  destruct (splitStars rest) as [|p ps] eqn:Es; [contradiction|].
  rewrite <- IH1. reflexivity.
Qed.

(** The first part starts as the string does, or is empty. *)
Lemma splitStars_head (s : string) :
  match splitStars s with
  | String c _ :: _ => exists rest, s = String c rest
  | _ => True
  end.
Proof.
  destruct s as [|c [|c2 rest]].
  - exact I.
  - rewrite splitStars_1. eexists. reflexivity.
  - rewrite splitStars_2.
    destruct (Ascii.eqb c "*" && Ascii.eqb c2 "*"); [exact I|].
    destruct (splitStars (String c2 rest)); cbn [consFirst];
      eexists; reflexivity.
Qed.

Lemma includes_String (c : ascii) (s sub : string) :
  includes (String c s) sub = String.prefix sub (String c s) || includes s sub.
Proof. reflexivity. Qed.

Lemma prefix_String (a b : ascii) (s1 s2 : string) :
  String.prefix (String a s1) (String b s2)
  = if Ascii.ascii_dec a b then String.prefix s1 s2 else false.
Proof. reflexivity. Qed.

Lemma prefix_marks (c : ascii) (p : string) :
  String.prefix "**" (String c p)
  = Ascii.eqb c "*" && match p with
                       | String a _ => Ascii.eqb a "*"
                       | EmptyString => false
                       end.
Proof.
  rewrite prefix_String. destruct (Ascii.ascii_dec "*" c) as [<-|Hne].
  - rewrite Ascii.eqb_refl. destruct p as [|a p']; [reflexivity|].
    rewrite prefix_String. destruct (Ascii.ascii_dec "*" a) as [<-|Hne].
    + rewrite Ascii.eqb_refl. destruct p'; reflexivity.
    + rewrite (proj2 (Ascii.eqb_neq a "*")) by congruence. reflexivity.
  - rewrite (proj2 (Ascii.eqb_neq c "*")) by congruence. reflexivity.
Qed.

Lemma splitStars_no_marks (s : string) :
  Forall (fun part => includes part "**" = false) (splitStars s).
Proof.
  induction s as [|c|c c2 rest IH1 IH2] using string_pair_ind.
  - repeat constructor.
  - rewrite splitStars_1. constructor; [|constructor].
    rewrite includes_String, prefix_marks, andb_false_r. reflexivity.
  - rewrite splitStars_2.
    destruct (Ascii.eqb c "*" && Ascii.eqb c2 "*") eqn:E.
    + constructor; [reflexivity | exact IH1].
    + pose proof (splitStars_head (String c2 rest)) as Hhead.
      destruct (splitStars (String c2 rest)) as [|p ps]; cbn [consFirst].
      * constructor; [|constructor].
        rewrite includes_String, prefix_marks, andb_false_r. reflexivity.
      * apply Forall_cons in IH2 as [Hp Hps].
        constructor; [|exact Hps].
        rewrite includes_String, Hp, orb_false_r, prefix_marks.
        destruct p as [|a p']; [apply andb_false_r|].
        destruct Hhead as [r Hr]. injection Hr as -> _. exact E.
Qed.

Lemma fmap_nodeText_imap (cls : string) (parts : list string) (k : nat) :
  nodeText <$>
    imap (fun index part =>
            if decide (Nat.modulo (k + index) 2 = 1%nat)
            then SpanNode cls part else TextNode part) parts
  = parts.
Proof.
  revert k. induction parts as [|p ps IH]; intros k; [reflexivity|].
  rewrite imap_cons. cbn [fmap list_fmap]. f_equal.
  - destruct (decide (Nat.modulo (k + 0) 2 = 1%nat)); reflexivity.
  - rewrite <- (IH (S k)) at 2. f_equal. apply imap_ext.
    intros i x _. cbn. replace (k + S i)%nat with (S k + i)%nat by lia.
    reflexivity.
Qed.

(** X9. [renderFormattedText] loses nothing and shows no mark: for a
    text that is not empty, putting [**] back between the pieces gives
    the text again, no piece has [**] in it, and the pieces at odd
    places, and only those, are highlighted spans. The empty text
    renders as [null]. *)
Theorem X9_renderFormattedText_pieces (text highlightClass : string) :
  (text = EmptyString ->
   renderFormattedText text highlightClass = None) /\
  (text <> EmptyString ->
   exists nodes,
     renderFormattedText text highlightClass = Some nodes /\
     String.concat "**" (nodeText <$> nodes) = text /\
     Forall (fun n => includes (nodeText n) "**" = false) nodes /\
     forall i n, nodes !! i = Some n ->
       (Nat.odd i = true ->
        n = SpanNode (highlightClass ++ " font-black") (nodeText n)) /\
       (Nat.odd i = false -> n = TextNode (nodeText n))).
Proof.
  unfold renderFormattedText. split; intros Ht.
  - destruct (decide (text = EmptyString)); [reflexivity | contradiction].
  - destruct (decide (text = EmptyString)) as [|_]; [contradiction|].
    eexists. split; [reflexivity|].
    pose proof (fmap_nodeText_imap (highlightClass ++ " font-black")
                  (splitStars text) 0) as Hmap.
    cbn [Nat.add] in Hmap.
    split; [rewrite Hmap; apply concat_splitStars|]. split.
    + apply (Forall_fmap nodeText (fun t => includes t "**" = false)).
      rewrite Hmap. apply splitStars_no_marks.
    + intros i n Hn. apply list_lookup_imap_Some in Hn as [part [_ ->]].
      assert (Hodd : Nat.odd i = true <-> Nat.modulo i 2 = 1%nat).
      { rewrite Nat.odd_spec. split.
        - intros [k ->]. rewrite Nat.add_comm, Nat.mul_comm.
          rewrite Nat.Div0.mod_add. reflexivity.
        - intros Hm. exists (Nat.div i 2).
          pose proof (Nat.div_mod_eq i 2). lia. }
      destruct (decide (Nat.modulo i 2 = 1%nat)) as [Hm|Hm]; cbn.
      * split; [reflexivity|]. intros Hev. apply Hodd in Hm. congruence.
      * split; [|reflexivity]. intros Ho. apply Hodd in Ho. contradiction.
Qed.

(** ** Image addresses *)

Lemma revOnto_app (a b acc : string) :
  revOnto (a ++ b) acc = revOnto b (revOnto a acc).
Proof.
  revert acc. induction a as [|c a IH]; intros acc; [reflexivity|].
  cbn [append revOnto]. apply IH.
Qed.

Lemma endsWith_png (a b : string) :
  endsWith (a ++ b ++ "&output=png") ".svg" = false.
Proof. unfold endsWith. rewrite !revOnto_app. reflexivity. Qed.

(** X10. The address [convertSvgToPngUrl] returns never ends in
    [.svg], and converting twice is converting once. *)
Theorem X10_convertSvgToPngUrl_no_svg (url : string) :
  endsWith (convertSvgToPngUrl url) ".svg" = false /\
  convertSvgToPngUrl (convertSvgToPngUrl url) = convertSvgToPngUrl url.
Proof.
  assert (Hfix : forall u, endsWith u ".svg" = false ->
                           convertSvgToPngUrl u = u).
  { intros u Hu. unfold convertSvgToPngUrl. rewrite Hu.
    destruct (decide (u = EmptyString)) as [->|_]; reflexivity. }
  assert (Hno : endsWith (convertSvgToPngUrl url) ".svg" = false).
  { unfold convertSvgToPngUrl.
    destruct (decide (url = EmptyString)) as [->|Hne]; [reflexivity|].
    destruct (endsWith url ".svg") eqn:Hsvg; [|exact Hsvg].
    apply endsWith_png. }
  split; [exact Hno | apply Hfix; exact Hno].
Qed.

(** ** The scores of the mail *)

(** X11. The mail shows what the page shows: for a summary computed by
    [localSummary], [getCatData] finds every category, and gives it the
    score, the level and the colour of its entry in the summary; the
    four values drawn on the chart of the mail add up to the total
    written above it. *)
Theorem X11_getCatData_agrees_with_summary
  (QUESTIONS : list Question.t) (CATEGORY_INFO : Category -> CategoryInfo)
  (step : Step) (answers : gmap Z Z) (sm : Summary) (cat : Category) :
  localSummary QUESTIONS CATEGORY_INFO step answers = Some sm ->
  cdScore (getCatData sm cat) = catScore QUESTIONS answers cat /\
  cdLevel (getCatData sm cat) = levelOf (catScore QUESTIONS answers cat) /\
  cdColor (getCatData sm cat) = colorOf (catScore QUESTIONS answers cat) /\
  sumZ (chartData sm) = totalScore sm.
Proof.
  intros Hs. pose proof (totalScore_sum _ _ _ _ _ Hs) as Htot.
  apply localSummary_Some in Hs as [Hsum _].
  assert (Hfind : forall c,
            List.find (fun s => bool_decide (DimensionResult.category s = c))
                      (summary sm)
            = Some (dimension QUESTIONS CATEGORY_INFO answers c)).
  { intros c. rewrite Hsum. destruct c; reflexivity. }
  assert (Hscore : forall c,
            cdScore (getCatData sm c) = catScore QUESTIONS answers c).
  { intros c. unfold getCatData. rewrite Hfind.
    destruct (decide (_ = Some GreenLight));
      [|destruct (decide (_ = Some YellowLight))];
      cbn; destruct (decide (catScore QUESTIONS answers c = 0)) as [->|];
      reflexivity. }
  split; [apply Hscore|].
  split; [|split].
  - unfold getCatData. rewrite Hfind.
    destruct (decide (_ = Some GreenLight));
      [|destruct (decide (_ = Some YellowLight))]; reflexivity.
  - unfold getCatData. rewrite Hfind. unfold colorOf.
    cbn [fmap option_fmap option_map dimension DimensionResult.level].
    unfold levelOf, levelColor.
    destruct (decide (12 <= catScore QUESTIONS answers cat));
      [|destruct (decide (7 <= catScore QUESTIONS answers cat))];
      reflexivity.
  - unfold chartData. cbn [sumZ foldr]. rewrite !Hscore, Htot. lia.
Qed.

(** ** Levels and single answers *)

(** X12. A higher score never gives a lower level, in the 60-point
    page and in its 48-point copy. *)
Theorem X12_level_is_monotone (score1 score2 : Z) :
  score1 <= score2 ->
  levelRank (levelOf score1) <= levelRank (levelOf score2) /\
  levelRank (Variant48.levelOf score1)
    <= levelRank (Variant48.levelOf score2).
Proof.
  intros Hle. unfold levelOf, levelColor, Variant48.levelOf. split.
  - destruct (decide (12 <= score1)), (decide (7 <= score1)),
      (decide (12 <= score2)), (decide (7 <= score2)); cbn; lia.
  - destruct (decide (9 <= score1)), (decide (5 <= score1)),
      (decide (9 <= score2)), (decide (5 <= score2)); cbn; lia.
Qed.

Lemma sumZ_change_one (f g : Question.t -> Z) (q : Question.t)
  (l : list Question.t) :
  NoDup (Question.id <$> l) ->
  q ∈ l ->
  (forall q', q' ∈ l -> Question.id q' <> Question.id q -> g q' = f q') ->
  sumZ (map g l) = sumZ (map f l) + (g q - f q).
Proof.
  induction l as [|a l IH]; intros Hnd Hq Hsame.
  - inversion Hq.
  - rewrite fmap_cons in Hnd. apply NoDup_cons in Hnd as [Hnotin Hnd].
    cbn [map sumZ foldr]. fold (sumZ (map g l)) (sumZ (map f l)).
    apply elem_of_cons in Hq as [->|Hq].
    + rewrite (sumZ_ext g f l); [lia|].
      intros q' Hq'. apply Hsame; [right; exact Hq'|].
      intros E. apply Hnotin. rewrite <- E.
      apply list_elem_of_fmap. exists q'. split; [reflexivity | exact Hq'].
    + rewrite (IH Hnd Hq); [|intros q' Hq'; apply Hsame; right; exact Hq'].
      rewrite (Hsame a); [lia | left |].
      intros E. apply Hnotin. rewrite E.
      apply list_elem_of_fmap. exists q. split; [reflexivity | exact Hq].
Qed.

Lemma NoDup_filter_ids (QUESTIONS : list Question.t) (cat : Category) :
  NoDup (Question.id <$> QUESTIONS) ->
  NoDup (Question.id <$> catQuestions QUESTIONS cat).
Proof.
  unfold catQuestions. induction QUESTIONS as [|a l IH]; intros Hnd.
  - constructor.
  - rewrite fmap_cons in Hnd. apply NoDup_cons in Hnd as [Hnotin Hnd].
    rewrite filter_cons. destruct (decide (Question.category a = cat)).
    + rewrite fmap_cons. apply NoDup_cons. split; [|apply IH; exact Hnd].
      intros Hin. apply Hnotin.
      apply list_elem_of_fmap in Hin as [q' [E Hq']].
      apply list_elem_of_filter in Hq' as [_ Hq'].
      apply list_elem_of_fmap. exists q'. split; assumption.
    + apply IH. exact Hnd.
Qed.

(** X13. In a bank whose ids are all different, answering question [q]
    with [val] changes the score of the category of [q] by what the new
    answer counts minus what the old one counted, and leaves the score
    of every other category as it was. *)
Theorem X13_answer_changes_one_category
  (QUESTIONS : list Question.t) (answers : gmap Z Z) (q : Question.t)
  (val : Z) (cat : Category) :
  NoDup (Question.id <$> QUESTIONS) ->
  q ∈ QUESTIONS ->
  catScore QUESTIONS (<[Question.id q := val]> answers) cat
  = catScore QUESTIONS answers cat
    + (if decide (Question.category q = cat)
       then addend (Some val) - addend (answers !! Question.id q)
       else 0).
Proof.
  intros Hnd Hq. rewrite !catScore_sum.
  destruct (decide (Question.category q = cat)) as [Hcat|Hcat].
  - rewrite (sumZ_change_one
               (fun q0 => addend (answers !! Question.id q0))
               (fun q0 => addend (<[Question.id q := val]> answers
                                    !! Question.id q0))
               q).
    + rewrite lookup_insert_eq. reflexivity.
    + apply NoDup_filter_ids. exact Hnd.
    + apply elem_of_catQuestions. split; assumption.
    + intros q' _ Hne. rewrite lookup_insert_ne by congruence. reflexivity.
  - rewrite Z.add_0_r. apply sumZ_ext. intros q' Hq'.
    apply elem_of_catQuestions in Hq' as [Hcat' Hq'].
    rewrite lookup_insert_ne; [reflexivity|].
    intros E.
    assert (q = q'); [|congruence].
    apply list_elem_of_lookup in Hq as [i Hi].
    apply list_elem_of_lookup in Hq' as [j Hj].
    assert (i = j); [|congruence].
    apply (NoDup_lookup _ i j (Question.id q) Hnd).
    + rewrite list_lookup_fmap, Hi. reflexivity.
    + rewrite list_lookup_fmap, Hj. cbn. rewrite E. reflexivity.
Qed.

(** ** The persona of the page and of the mail *)


(** ** The text of the mail *)

Lemma includes_nil (sub : string) :
  includes EmptyString sub = String.prefix sub EmptyString.
Proof. cbn. apply orb_false_r. Qed.

Lemma prefix_empty (s : string) : String.prefix EmptyString s = true.
Proof. destruct s; reflexivity. Qed.

Lemma prefix_char (x c : ascii) (s : string) :
  String.prefix (String x EmptyString) (String c s) = Ascii.eqb x c.
Proof.
  rewrite prefix_String. destruct (Ascii.ascii_dec x c) as [->|Hne].
  - rewrite prefix_empty, Ascii.eqb_refl. reflexivity.
  - symmetry. apply Ascii.eqb_neq. exact Hne.
Qed.

Lemma append_String (c : ascii) (a b : string) :
  String c a ++ b = String c (a ++ b).
Proof. reflexivity. Qed.

Lemma append_empty (b : string) : EmptyString ++ b = b.
Proof. reflexivity. Qed.

Lemma includes_char_app (x : ascii) (a b : string) :
  includes (a ++ b) (String x EmptyString)
  = includes a (String x EmptyString) || includes b (String x EmptyString).
Proof.
  induction a as [|c a IH]; [reflexivity|].
  rewrite append_String, !includes_String, !prefix_char, IH.
  apply orb_assoc.
Qed.

Lemma startsWithStar_app (a b : string) :
  a <> EmptyString -> startsWithStar (a ++ b) = startsWithStar a.
Proof. destruct a; [contradiction | reflexivity]. Qed.

Lemma endsWithStar_app (a b : string) :
  b <> EmptyString -> endsWithStar (a ++ b) = endsWithStar b.
Proof.
  intros Hb. induction a as [|c a IH]; [reflexivity|].
  rewrite append_String. cbn [endsWithStar]. rewrite IH.
  destruct (a ++ b) eqn:E; [|reflexivity].
  destruct a; [rewrite append_empty in E; contradiction | discriminate E].
Qed.

Lemma prefix_marks_starts (c : ascii) (p : string) :
  String.prefix "**" (String c p) = Ascii.eqb c "*" && startsWithStar p.
Proof. rewrite prefix_marks. destruct p; reflexivity. Qed.

(** Where [**] can be in the two halves of a string. *)
Lemma includes_marks_app (a b : string) :
  includes (a ++ b) "**"
  = includes a "**" || includes b "**"
    || (endsWithStar a && startsWithStar b).
Proof.
  induction a as [|c a IH].
  - rewrite append_empty. cbn [endsWithStar andb]. rewrite includes_nil.
    cbn. rewrite orb_false_r. reflexivity.
  - rewrite append_String, !includes_String, !prefix_marks_starts, IH.
    destruct a as [|d a'].
    + rewrite append_empty. cbn [startsWithStar endsWithStar].
      rewrite includes_nil.
      cbn [String.prefix]. destruct (Ascii.eqb c "*"), (startsWithStar b),
        (includes b "**"); reflexivity.
    + rewrite append_String. cbn [startsWithStar].
      change (endsWithStar (String c (String d a')))
        with (endsWithStar (String d a')).
      destruct (Ascii.eqb c "*"), (Ascii.eqb d "*"),
        (includes (String d a') "**"), (includes b "**"),
        (endsWithStar (String d a')), (startsWithStar b); reflexivity.
Qed.

Lemma replaceNewlines_no_newline (s : string) :
  includes (replaceNewlines s) newline = false.
Proof.
  unfold newline. induction s as [|c s IH]; [reflexivity|].
  cbn [replaceNewlines].
  destruct (Ascii.eqb c (ascii_of_nat 10)) eqn:E.
  - rewrite includes_char_app, IH. reflexivity.
  - rewrite includes_String, prefix_char, IH, Ascii.eqb_sym, E. reflexivity.
Qed.

Lemma includes_char_String (x c : ascii) (s : string) :
  includes (String c s) (String x EmptyString) = false <->
  Ascii.eqb x c = false /\ includes s (String x EmptyString) = false.
Proof.
  rewrite includes_String, prefix_char. apply orb_false_iff.
Qed.

Lemma splitStars_no_char (x : ascii) (s : string) :
  includes s (String x EmptyString) = false ->
  Forall (fun part => includes part (String x EmptyString) = false)
         (splitStars s).
Proof.
  induction s as [|c|c c2 rest IH1 IH2] using string_pair_ind; intros Hs.
  - repeat constructor.
  - rewrite splitStars_1. constructor; [exact Hs | constructor].
  - apply includes_char_String in Hs as [Hc Hrest].
    pose proof Hrest as Hrest'.
    apply includes_char_String in Hrest' as [_ Hrest'].
    rewrite splitStars_2.
    destruct (Ascii.eqb c "*" && Ascii.eqb c2 "*").
    + constructor; [reflexivity | apply IH1; exact Hrest'].
    + specialize (IH2 Hrest).
      destruct (splitStars (String c2 rest)) as [|p ps]; cbn [consFirst].
      * constructor; [|constructor].
        apply includes_char_String. split; [exact Hc | reflexivity].
      * apply Forall_cons in IH2 as [Hp Hps]. constructor; [|exact Hps].
        apply includes_char_String. split; assumption.
Qed.

Lemma concat_cleanPieces (pieces : list string) :
  Forall cleanPiece pieces ->
  includes (String.concat EmptyString pieces) "**" = false /\
  includes (String.concat EmptyString pieces) newline = false /\
  startsWithStar (String.concat EmptyString pieces) = false.
Proof.
  induction pieces as [|p ps IH]; intros Hall.
  - repeat split.
  - apply Forall_cons in Hall as [(Hm & Hn & Hs & He & Hne) Hps].
    specialize (IH Hps). destruct IH as (IHm & IHn & IHs).
    destruct ps as [|q ps']; [repeat split; assumption|].
    change (String.concat EmptyString (p :: q :: ps'))
      with (p ++ String.concat EmptyString (q :: ps')).
    rewrite includes_marks_app, Hm, IHm, He.
    unfold newline in *. rewrite includes_char_app, Hn, IHn.
    rewrite startsWithStar_app by exact Hne. repeat split. exact Hs.
Qed.

Lemma clean_app (a b : string) :
  includes a "**" = false -> includes a newline = false ->
  includes b "**" = false -> includes b newline = false ->
  endsWithStar a && startsWithStar b = false ->
  includes (a ++ b) "**" = false /\ includes (a ++ b) newline = false.
Proof.
  intros Ha Han Hb Hbn Hj. unfold newline in *.
  rewrite includes_marks_app, includes_char_app, Ha, Han, Hb, Hbn, Hj.
  split; reflexivity.
Qed.

Lemma append_not_empty (a b : string) :
  b <> EmptyString -> a ++ b <> EmptyString.
Proof.
  intros Hb. destruct a; [rewrite append_empty; exact Hb|].
  rewrite append_String. discriminate.
Qed.

(** What [convertToHtmlString] makes of one part. *)
Lemma plain_piece_clean (part : string) :
  includes part "**" = false -> includes part newline = false ->
  cleanPiece ("<span>" ++ part ++ "</span>").
Proof.
  intros Hm Hn.
  destruct (clean_app part "</span>" Hm Hn eq_refl eq_refl
              (andb_false_r _)) as [H1m H1n].
  destruct (clean_app "<span>" (part ++ "</span>") eq_refl eq_refl H1m H1n
              eq_refl) as [H2m H2n].
  repeat split; try assumption.
  - rewrite !endsWithStar_app; [reflexivity | discriminate |].
    apply append_not_empty. discriminate.
  - discriminate.
Qed.

Lemma span_piece_clean (highlightColor part : string) :
  includes highlightColor "**" = false ->
  includes highlightColor newline = false ->
  includes part "**" = false -> includes part newline = false ->
  cleanPiece ("<span style=" ++ dquote ++ "color: " ++ highlightColor
              ++ "; font-weight: bold;" ++ dquote ++ ">" ++ part
              ++ "</span>").
Proof.
  intros Hcm Hcn Hm Hn.
  destruct (clean_app part "</span>" Hm Hn eq_refl eq_refl
              (andb_false_r _)) as [H1m H1n].
  destruct (clean_app ">" _ eq_refl eq_refl H1m H1n eq_refl) as [H2m H2n].
  destruct (clean_app dquote _ eq_refl eq_refl H2m H2n eq_refl)
    as [H3m H3n].
  destruct (clean_app "; font-weight: bold;" _ eq_refl eq_refl H3m H3n
              eq_refl) as [H4m H4n].
  destruct (clean_app highlightColor _ Hcm Hcn H4m H4n (andb_false_r _))
    as [H5m H5n].
  destruct (clean_app "color: " _ eq_refl eq_refl H5m H5n eq_refl)
    as [H6m H6n].
  destruct (clean_app dquote _ eq_refl eq_refl H6m H6n eq_refl)
    as [H7m H7n].
  destruct (clean_app "<span style=" _ eq_refl eq_refl H7m H7n eq_refl)
    as [H8m H8n].
  repeat split; try assumption.
  - rewrite !endsWithStar_app; [reflexivity | ..];
      repeat (first [discriminate | apply append_not_empty]).
  - discriminate.
Qed.

(** X15. The HTML made for the mail holds no line feed and no [**]
    mark, whatever the text, when the colour holds none. *)
Theorem X15_convertToHtmlString_clean (text highlightColor : string) :
  includes highlightColor "**" = false ->
  includes highlightColor newline = false ->
  includes (convertToHtmlString text highlightColor) "**" = false /\
  includes (convertToHtmlString text highlightColor) newline = false.
Proof.
  intros Hcm Hcn. unfold convertToHtmlString.
  destruct (decide (text = EmptyString)); [split; reflexivity|].
  cbv zeta.
  pose proof (splitStars_no_marks (replaceNewlines text)) as Hm.
  pose proof (splitStars_no_char _ _ (replaceNewlines_no_newline text))
    as Hn.
  fold newline in Hn.
  set (parts := splitStars (replaceNewlines text)) in *.
  match goal with
  | |- context [String.concat EmptyString ?l] =>
      assert (Hclean : Forall cleanPiece l)
  end.
  { apply Forall_forall. intros piece Hp.
    apply elem_of_lookup_imap_1 in Hp as (i & part & -> & Hi).
    rewrite Forall_forall in Hm, Hn.
    assert (Hin : part ∈ parts)
      by (apply list_elem_of_lookup; eexists; exact Hi).
    destruct (decide (Nat.modulo i 2 = 1%nat)).
    - apply span_piece_clean; auto.
    - apply plain_piece_clean; auto. }
  destruct (concat_cleanPieces _ Hclean) as (H1 & H2 & _).
  split; assumption.
Qed.

(** ** The answers sent to the AI *)

Lemma answerLabel_unanswered (OPTIONS : list Opt.t) (answers : gmap Z Z)
  (q : Question.t) :
  answers !! Question.id q = None ->
  answerLabel OPTIONS answers q = "未答".
Proof.
  intros Hnone. unfold answerLabel. rewrite Hnone.
  destruct (List.find _ OPTIONS) as [o|] eqn:Hf; [|reflexivity].
  apply find_some in Hf as [_ Hf].
  apply bool_decide_eq_true in Hf. discriminate.
Qed.

Lemma answerLabel_answered (OPTIONS : list Opt.t) (answers : gmap Z Z)
  (q : Question.t) (o : Opt.t) :
  o ∈ OPTIONS ->
  answers !! Question.id q = Some (Opt.value o) ->
  (forall o', o' ∈ OPTIONS -> Opt.label o' <> EmptyString) ->
  exists o', o' ∈ OPTIONS /\ Opt.value o' = Opt.value o /\
             answerLabel OPTIONS answers q = Opt.label o'.
Proof.
  intros Ho Hans Hlabels. unfold answerLabel. rewrite Hans.
  destruct (List.find _ OPTIONS) as [o'|] eqn:Hf.
  - apply find_some in Hf as [Hin Hv].
    apply bool_decide_eq_true in Hv. injection Hv as Hv.
    apply list_elem_of_In in Hin.
    exists o'. split; [exact Hin|]. split; [exact Hv|].
    cbn. unfold orString.
    destruct (decide (Opt.label o' = EmptyString)) as [E|_];
      [|reflexivity].
    exfalso. exact (Hlabels o' Hin E).
  - exfalso. apply list_elem_of_In in Ho.
    pose proof (find_none _ _ Hf o Ho) as Hb. cbn beta in Hb.
    apply bool_decide_eq_false in Hb. apply Hb. reflexivity.
Qed.

(** X16. What is sent to the AI as the answer to a question, in a
    state the page reaches when every delayed step is run before the
    next event. It is ['未答'] when the question has no answer. When
    no option has an empty label, it is, for a question that has an
    answer, the label of an option that has the stored value; and on
    the diagnosing and the result screen every question has an answer,
    so that each is sent with such a label. The last part rests on the
    order of the events: see [late_nextStep_skips_a_question]. *)
Theorem X16_answers_sent_with_their_labels
  (QUESTIONS : list Question.t) (CATEGORY_INFO : Category -> CategoryInfo)
  (OPTIONS : list Opt.t) (GEMINI_API_KEY : string) (events : list Event)
  (s : AppState.t) :
  QUESTIONS <> [] ->
  (forall o, o ∈ OPTIONS -> Opt.label o <> EmptyString) ->
  run QUESTIONS CATEGORY_INFO OPTIONS GEMINI_API_KEY events initialState
    = Some s ->
  (forall q, AppState.answers s !! Question.id q = None ->
     answerLabel OPTIONS (AppState.answers s) q = "未答") /\
  (forall q v, AppState.answers s !! Question.id q = Some v ->
     exists o, o ∈ OPTIONS /\ Opt.value o = v /\
       answerLabel OPTIONS (AppState.answers s) q = Opt.label o) /\
  (AppState.step s = diagnosing \/ AppState.step s = result ->
   forall q, q ∈ QUESTIONS ->
     exists o, o ∈ OPTIONS /\
       AppState.answers s !! Question.id q = Some (Opt.value o) /\
       answerLabel OPTIONS (AppState.answers s) q = Opt.label o).
Proof.
  intros Hne Hlabels Hrun.
  destruct (run_inv QUESTIONS CATEGORY_INFO OPTIONS GEMINI_API_KEY events
              initialState Hne (initialState_inv QUESTIONS OPTIONS))
    as [s' [Hrun' Hinv]].
  rewrite Hrun in Hrun'. injection Hrun' as <-.
  assert (Hanswered : forall q v,
            AppState.answers s !! Question.id q = Some v ->
            exists o, o ∈ OPTIONS /\ Opt.value o = v /\
              answerLabel OPTIONS (AppState.answers s) q = Opt.label o).
  { intros q v Hv.
    destruct (inv_answers _ _ _ Hinv _ _ Hv) as [_ [o [Ho Hval]]].
    subst v.
    destruct (answerLabel_answered OPTIONS (AppState.answers s) q o Ho Hv
                Hlabels) as (o' & Ho' & Hval' & Hlab).
    exists o'. split; [exact Ho'|]. split; [exact Hval' | exact Hlab]. }
  split; [intros q; apply answerLabel_unanswered|].
  split; [exact Hanswered|].
  intros Hstep q Hq.
  destruct (inv_complete _ _ _ Hinv Hstep q Hq) as [v Hv].
  destruct (Hanswered q v Hv) as (o & Ho & Hval & Hlab).
  exists o. split; [exact Ho|]. split; [|exact Hlab].
  rewrite Hv, Hval. reflexivity.
Qed.

(** Why the order of the events matters. The user answers the first
    question, goes back twice and starts again within the delay of
    the [nextStep] the answer scheduled. That [nextStep] then moves the
    new quiz to its second question; the quiz goes on to its end, and
    the page is on the diagnosing screen with the first question
    unanswered, which is sent as ['未答']. *)
Example late_nextStep_skips_a_question :
  exists s0 s q,
    afterLateNextStep = Some s0 /\
    run QUESTIONS20 CATEGORY_INFO0 OPTIONS5 EmptyString restOfQuiz s0
      = Some s /\
    AppState.step s = diagnosing /\
    QUESTIONS20 !! 0%nat = Some q /\
    AppState.answers s !! Question.id q = None /\
    answerLabel OPTIONS5 (AppState.answers s) q = "未答".
Proof.
  destruct afterLateNextStep as [s0|] eqn:E0;
    [|vm_compute in E0; discriminate].
  destruct (run QUESTIONS20 CATEGORY_INFO0 OPTIONS5 EmptyString restOfQuiz s0)
    as [s|] eqn:E.
  - destruct (QUESTIONS20 !! 0%nat) as [q|] eqn:Eq;
      [|vm_compute in Eq; discriminate].
    exists s0, s, q. split; [reflexivity|]. split; [exact E|].
    vm_compute in E0. injection E0 as <-.
    vm_compute in E. injection E as <-.
    vm_compute in Eq. injection Eq as <-.
    split; [reflexivity|]. split; [reflexivity|].
    split; vm_compute; reflexivity.
  - vm_compute in E0. injection E0 as <-.
    vm_compute in E. discriminate.
Qed.


(** ** The properties above on the 20-question page *)

Lemma QUESTIONS20_not_empty : QUESTIONS20 <> [].
Proof. discriminate. Qed.

Lemma OPTIONS5_in_scale (o : Opt.t) :
  o ∈ OPTIONS5 -> -1 <= Opt.value o <= maxOptionValue.
Proof.
  intros Ho. apply list_elem_of_In in Ho. unfold maxOptionValue.
  repeat (destruct Ho as [<-|Ho]; [cbn; lia|]). destruct Ho.
Qed.

Lemma PERSONAS6_has_all_ids (i : string) :
  i ∈ personaIds -> exists q, q ∈ PERSONAS6 /\ Persona.id q = i.
Proof.
  intros Hi.
  exists (Persona.mk i EmptyString EmptyString [] EmptyString).
  split; [|reflexivity].
  unfold PERSONAS6. apply list_elem_of_fmap. exists i.
  split; [reflexivity | exact Hi].
Qed.

Lemma X1_witness :
  QUESTIONS20 <> [] /\
  exists s,
    run QUESTIONS20 CATEGORY_INFO0 OPTIONS5 EmptyString
      [ClickStart; ClickNext; ClickOption 2; ClickPrev] initialState
      = Some s /\
    (AppState.step s = quiz ->
     (exists q, at_index QUESTIONS20 (AppState.currentIdx s) = Some q) /\
     (AppState.isIntroMode s = true ->
      Z.rem (AppState.currentIdx s) 5 = 0)).
Proof.
  split; [exact QUESTIONS20_not_empty|].
  exact (X1_quiz_screen_has_a_question QUESTIONS20 CATEGORY_INFO0 OPTIONS5
           EmptyString [ClickStart; ClickNext; ClickOption 2; ClickPrev]
           QUESTIONS20_not_empty).
Defined.

Lemma X2_witness :
  run QUESTIONS20 CATEGORY_INFO0 OPTIONS5 EmptyString wholeQuiz initialState
    = Some (stateAfter wholeQuiz) /\
  AppState.step (stateAfter wholeQuiz) = diagnosing /\
  forall q, q ∈ QUESTIONS20 ->
    exists o, o ∈ OPTIONS5 /\
      AppState.answers (stateAfter wholeQuiz) !! Question.id q
        = Some (Opt.value o).
Proof.
  assert (Hrun : run QUESTIONS20 CATEGORY_INFO0 OPTIONS5 EmptyString
                   wholeQuiz initialState = Some (stateAfter wholeQuiz))
    by (vm_compute; reflexivity).
  assert (Hstep : AppState.step (stateAfter wholeQuiz) = diagnosing)
    by (vm_compute; reflexivity).
  split; [exact Hrun|]. split; [exact Hstep|].
  exact (proj1 (X2_answers_complete_and_from_options QUESTIONS20
                  CATEGORY_INFO0 OPTIONS5 EmptyString wholeQuiz _
                  QUESTIONS20_not_empty Hrun) (or_introl Hstep)).
Defined.

Lemma X3_witness :
  exists sm,
    summaryOf QUESTIONS20 CATEGORY_INFO0 (stateAfter wholeQuiz) = Some sm /\
    totalScore sm = 24 /\
    0 <= totalScore sm <= maxOptionValue * Z.of_nat (length QUESTIONS20).
Proof.
  assert (Hrun : run QUESTIONS20 CATEGORY_INFO0 OPTIONS5 EmptyString
                   wholeQuiz initialState = Some (stateAfter wholeQuiz))
    by (vm_compute; reflexivity).
  assert (Hstep : AppState.step (stateAfter wholeQuiz) = diagnosing)
    by (vm_compute; reflexivity).
  destruct (X3_page_scores_within_scale QUESTIONS20 CATEGORY_INFO0 OPTIONS5
              EmptyString wholeQuiz _ QUESTIONS20_not_empty
              OPTIONS5_in_scale Hrun (or_introl Hstep))
    as [sm [Hsm [_ Htot]]].
  exists sm. split; [exact Hsm|]. split; [|exact Htot].
  assert (Ht : totalScore <$> summaryOf QUESTIONS20 CATEGORY_INFO0
                                (stateAfter wholeQuiz) = Some 24)
    by (vm_compute; reflexivity).
  rewrite Hsm in Ht. injection Ht as Ht. exact Ht.
Defined.

Lemma X4_witness :
  run QUESTIONS20 CATEGORY_INFO0 OPTIONS5 EmptyString quizThenSkip
    initialState = Some (stateAfter quizThenSkip) /\
  AppState.step (stateAfter quizThenSkip) = result /\
  is_Some (summaryOf QUESTIONS20 CATEGORY_INFO0 (stateAfter quizThenSkip)) /\
  is_Some (AppState.aiAnalysis (stateAfter quizThenSkip)).
Proof.
  assert (Hrun : run QUESTIONS20 CATEGORY_INFO0 OPTIONS5 EmptyString
                   quizThenSkip initialState
                 = Some (stateAfter quizThenSkip))
    by (vm_compute; reflexivity).
  assert (Hstep : AppState.step (stateAfter quizThenSkip) = result)
    by (vm_compute; reflexivity).
  split; [exact Hrun|]. split; [exact Hstep|].
  exact (X4_result_screen_guard_holds QUESTIONS20 CATEGORY_INFO0 OPTIONS5
           EmptyString quizThenSkip _ QUESTIONS20_not_empty Hrun Hstep).
Defined.

Lemma X5_witness :
  AppState.currentIdx atFifthQuestion = 4 /\
  AppState.isIntroMode atFifthQuestion = false /\
  prevStep (nextStep QUESTIONS20 atFifthQuestion atFifthQuestion)
           (nextStep QUESTIONS20 atFifthQuestion atFifthQuestion)
    = atFifthQuestion /\
  nextStep QUESTIONS20 (prevStep atFifthQuestion atFifthQuestion)
           (prevStep atFifthQuestion atFifthQuestion)
    = atFifthQuestion.
Proof.
  split; [reflexivity|]. split; [reflexivity|].
  assert (Hidx : 0 <= AppState.currentIdx atFifthQuestion
                 < Z.of_nat (length QUESTIONS20))
    by (vm_compute; split; [discriminate | reflexivity]).
  assert (Hintro : AppState.isIntroMode atFifthQuestion = true ->
                   Z.rem (AppState.currentIdx atFifthQuestion) 5 = 0)
    by (vm_compute; discriminate).
  destruct (X5_back_and_forward_are_inverse QUESTIONS20 atFifthQuestion
              Hidx Hintro) as [Hfw Hbw].
  split.
  - apply Hfw. right. vm_compute. reflexivity.
  - apply Hbw. left. reflexivity.
Defined.

Lemma X6_witness :
  exists s1 s2 s2',
    handleAnswer QUESTIONS20 3 atFifthQuestion atFifthQuestion = Some s1 /\
    handleAnswer QUESTIONS20 1 atFifthQuestion s1 = Some s2 /\
    handleAnswer QUESTIONS20 1 atFifthQuestion atFifthQuestion = Some s2' /\
    nextStep QUESTIONS20 atFifthQuestion
      (nextStep QUESTIONS20 atFifthQuestion s2)
    = nextStep QUESTIONS20 atFifthQuestion s2'.
Proof.
  eexists.
  assert (H1 : handleAnswer QUESTIONS20 3 atFifthQuestion atFifthQuestion
               = Some (setAnswers (<[5 := 3]> (AppState.answers atFifthQuestion))
                                  atFifthQuestion))
    by reflexivity.
  destruct (X6_double_click_counts_once QUESTIONS20 3 1 atFifthQuestion
              atFifthQuestion atFifthQuestion _ eq_refl eq_refl H1)
    as (s2 & s2' & Ha & Hb & Hc).
  exists s2, s2'. split; [exact H1|]. split; [exact Ha|].
  split; [exact Hb | exact Hc].
Defined.

Lemma X7_witness :
  AppState.step onErrorCard = diagnosing /\
  AppState.lastError onErrorCard <> EmptyString /\
  exists s' ls p,
    run QUESTIONS20 CATEGORY_INFO0 OPTIONS5 EmptyString
      [ClickSkip 1700000000500; ShowResult] onErrorCard = Some s' /\
    AppState.step s' = result /\
    summaryOf QUESTIONS20 CATEGORY_INFO0 s' = Some ls /\
    AppState.aiAnalysis s' = Some (fallbackAnalysis true ls) /\
    activePersona PERSONAS6 (AppState.aiAnalysis s') = Some p /\
    Persona.id p = fallbackId (totalScore ls).
Proof.
  assert (Hstep : AppState.step onErrorCard = diagnosing)
    by (vm_compute; reflexivity).
  assert (Herr : AppState.lastError onErrorCard <> EmptyString)
    by (vm_compute; discriminate).
  split; [exact Hstep|]. split; [exact Herr|].
  exact (X7_skip_leads_to_fallback_result QUESTIONS20 CATEGORY_INFO0 OPTIONS5
           EmptyString PERSONAS6 1700000000500 onErrorCard Hstep Herr
           PERSONAS6_has_all_ids).
Defined.

Lemma X8_witness :
  autoDiagnosis QUESTIONS20 CATEGORY_INFO0 (stateAfter wholeQuiz) = true /\
  autoDiagnosis QUESTIONS20 CATEGORY_INFO0
    (runDiagnosis QUESTIONS20 CATEGORY_INFO0 "key" false EmptyString
       1700000000000 (AiReturned None) (stateAfter wholeQuiz)) = false /\
  AppState.aiAnalysis
    (runDiagnosis QUESTIONS20 CATEGORY_INFO0 "key" false EmptyString
       1700000000000 (AiReturned None) (stateAfter wholeQuiz)) = None /\
  AppState.lastError
    (runDiagnosis QUESTIONS20 CATEGORY_INFO0 "key" false EmptyString
       1700000000000 (AiReturned None) (stateAfter wholeQuiz)) = EmptyString /\
  autoDiagnosis QUESTIONS20 CATEGORY_INFO0
    (runDiagnosis QUESTIONS20 CATEGORY_INFO0 "key" false EmptyString
       1700000000000 (AiThrew "Error: 429") (stateAfter wholeQuiz)) = false.
Proof.
  split; [vm_compute; reflexivity|].
  destruct (proj1 (X8_automatic_diagnosis_does_not_loop QUESTIONS20
                     CATEGORY_INFO0 OPTIONS5 "key")
                  1700000000000 (AiReturned None) (stateAfter wholeQuiz))
    as [E|[Hoff [[r Hr]|[Herr|(_ & Hai & Hmsg & _)]]]].
  - vm_compute in E. discriminate.
  - vm_compute in Hr. discriminate.
  - exfalso. apply Herr. vm_compute. reflexivity.
  - split; [exact Hoff|]. split; [exact Hai|]. split; [exact Hmsg|].
    destruct (proj1 (X8_automatic_diagnosis_does_not_loop QUESTIONS20
                       CATEGORY_INFO0 OPTIONS5 "key")
                    1700000000000 (AiThrew "Error: 429")
                    (stateAfter wholeQuiz)) as [E|[Hoff' _]].
    + vm_compute in E. discriminate.
    + exact Hoff'.
Defined.

Lemma X9_witness :
  exists nodes,
    renderFormattedText "keep **this** in mind" "text-amber-400"
      = Some nodes /\
    length nodes = 3%nat /\
    String.concat "**" (nodeText <$> nodes) = "keep **this** in mind".
Proof.
  destruct (proj2 (X9_renderFormattedText_pieces "keep **this** in mind"
                     "text-amber-400"))
    as (nodes & Hn & Hc & _); [discriminate|].
  exists nodes. split; [exact Hn|]. split; [|exact Hc].
  assert (E : length <$> renderFormattedText "keep **this** in mind"
                           "text-amber-400" = Some 3%nat)
    by (vm_compute; reflexivity).
  rewrite Hn in E. injection E as E. exact E.
Defined.

Lemma X11_witness :
  exists sm,
    localSummary QUESTIONS20 CATEGORY_INFO0 result mixedAnswers = Some sm /\
    cdScore (getCatData sm SocialImage) = 14 /\
    cdLevel (getCatData sm SocialImage) = GreenLight /\
    sumZ (chartData sm) = totalScore sm.
Proof.
  eexists. split; [reflexivity|].
  destruct (X11_getCatData_agrees_with_summary QUESTIONS20 CATEGORY_INFO0
              result mixedAnswers _ SocialImage eq_refl)
    as (Hs & Hl & _ & Hsum).
  split; [rewrite Hs; vm_compute; reflexivity|].
  split; [rewrite Hl; vm_compute; reflexivity | exact Hsum].
Defined.

Lemma X12_witness :
  levelRank (levelOf 6) <= levelRank (levelOf 13) /\
  levelRank (Variant48.levelOf 6) <= levelRank (Variant48.levelOf 13).
Proof. apply X12_level_is_monotone. lia. Defined.

Lemma QUESTIONS20_ids_differ : NoDup (Question.id <$> QUESTIONS20).
Proof. apply (bool_decide_eq_true_1 _). vm_compute. reflexivity. Qed.

Lemma X13_witness :
  catScore QUESTIONS20 (<[7 := 3]> partialAnswers) HairStyling
    = catScore QUESTIONS20 partialAnswers HairStyling + (3 - 2) /\
  catScore QUESTIONS20 (<[7 := 3]> partialAnswers) FaceComplexion
    = catScore QUESTIONS20 partialAnswers FaceComplexion + 0.
Proof.
  assert (Hq : Question.mk 7 HairStyling EmptyString ∈ QUESTIONS20)
    by (apply list_elem_of_In; vm_compute; tauto).
  split.
  - exact (X13_answer_changes_one_category QUESTIONS20 partialAnswers
             (Question.mk 7 HairStyling EmptyString) 3 HairStyling
             QUESTIONS20_ids_differ Hq).
  - exact (X13_answer_changes_one_category QUESTIONS20 partialAnswers
             (Question.mk 7 HairStyling EmptyString) 3 FaceComplexion
             QUESTIONS20_ids_differ Hq).
Defined.


Lemma X15_witness :
  includes (convertToHtmlString ("first**second**" ++ newline ++ "third")
              "#edae26") "**" = false /\
  includes (convertToHtmlString ("first**second**" ++ newline ++ "third")
              "#edae26") newline = false.
Proof.
  apply X15_convertToHtmlString_clean; reflexivity.
Defined.

Lemma OPTIONS5_labels (o : Opt.t) :
  o ∈ OPTIONS5 -> Opt.label o <> EmptyString.
Proof.
  intros Ho. apply list_elem_of_In in Ho.
  repeat (destruct Ho as [<-|Ho]; [discriminate|]). destruct Ho.
Qed.

Lemma X16_witness :
  AppState.step (stateAfter wholeQuiz) = diagnosing /\
  forall q, q ∈ QUESTIONS20 ->
    exists o, o ∈ OPTIONS5 /\
      AppState.answers (stateAfter wholeQuiz) !! Question.id q
        = Some (Opt.value o) /\
      answerLabel OPTIONS5 (AppState.answers (stateAfter wholeQuiz)) q
        = Opt.label o.
Proof.
  assert (Hrun : run QUESTIONS20 CATEGORY_INFO0 OPTIONS5 EmptyString
                   wholeQuiz initialState = Some (stateAfter wholeQuiz))
    by (vm_compute; reflexivity).
  assert (Hstep : AppState.step (stateAfter wholeQuiz) = diagnosing)
    by (vm_compute; reflexivity).
  split; [exact Hstep|].
  exact (proj2 (proj2 (X16_answers_sent_with_their_labels QUESTIONS20
                         CATEGORY_INFO0 OPTIONS5 EmptyString wholeQuiz _
                         QUESTIONS20_not_empty OPTIONS5_labels Hrun))
               (or_introl Hstep)).
Defined.
